(** * Log analysis pipeline: grouping, cluster summaries and file-wide alerts

    A shallow embedding of [clustering.py] and [agent_helper.py].

    - Python [str] values are sequences of Unicode code points: [pystr].
    - [collections.defaultdict(list)] keyed by cluster label is a finite map
      from [Z] to lists.
    - The language-model provider, the clustering kernel and the process
      environment are collaborators outside the repository: they appear as
      explicit arguments, and every statement quantifies over them.
    - Exceptions are the ones [except Exception] catches; signals that derive
      from [BaseException] only (keyboard interrupt, interpreter exit) and
      interpreter resource limits are outside the model.
    - Calls to [logger] do not influence any returned value and are left out. *)

From stdpp Require Import gmap list strings sorting.
From Stdlib Require Import ZArith NArith QArith.QArith_base Ascii DecimalString.

Set Default Proof Using "Type".
Local Open Scope Z_scope.

(** ** Python strings *)

Module PyStr.

(** A Python string, one [N] per code point. *)
Abbreviation pystr := (list N).

(** An ASCII literal of the source as a Python string. *)
Definition lit (s : string) : pystr :=
  (λ a, N_of_ascii a) <$> String.list_ascii_of_string s.

(** The double-quote character, spliced into literals that contain it. *)
Definition dq : pystr := [34%N].

(** [str(n)] for an [int], as f-strings format it. *)
Definition str_of_Z (n : Z) : pystr :=
  lit (NilZero.string_of_int (Z.to_int n)).

(** [sep.join(parts)]. *)
Fixpoint join (sep : pystr) (parts : list pystr) : pystr :=
  match parts with
  | [] => []
  | [p] => p
  | p :: rest => p ++ sep ++ join sep rest
  end.

(** The code points for which [str.isspace] holds; [str.strip] with no
    argument removes exactly these from both ends. *)
Definition isspace (c : N) : bool :=
  ((9 <=? c) && (c <=? 13) || (28 <=? c) && (c <=? 32)
   || (c =? 133) || (c =? 160) || (c =? 5760)
   || (8192 <=? c) && (c <=? 8202)
   || (c =? 8232) || (c =? 8233) || (c =? 8239) || (c =? 8287)
   || (c =? 12288))%N.

Fixpoint lstrip (s : pystr) : pystr :=
  match s with
  | c :: s' => if isspace c then lstrip s' else s
  | [] => []
  end.

Definition rstrip (s : pystr) : pystr := reverse (lstrip (reverse s)).

Definition strip (s : pystr) : pystr := rstrip (lstrip s).

(** [str.lower] on the ASCII range.  Outside it the Unicode case tables
    apply; they are a parameter [lower_other] giving, for a non-ASCII code
    point at a position of the string, its lower-case expansion. *)
Definition lower_ascii (c : N) : N :=
  if ((65 <=? c) && (c <=? 90))%N then (c + 32)%N else c.

Definition lower (lower_other : pystr → nat → pystr) (s : pystr) : pystr :=
  mjoin (imap (λ i c, if (c <? 128)%N then [lower_ascii c]
                      else lower_other s i) s).

End PyStr.
Import PyStr.

(** ** clustering.py *)

Module Clustering.

(** Errors raised by the clustering kernel. *)
Inductive kernel_error := ValueError (msg : pystr).

(** [DBSCAN(eps=..., min_samples=..., metric="cosine")]. *)
Record DBSCAN := {
  eps : Q;
  min_samples : Z;
  metric : pystr
}.

Section Kernel.
(** The embedding vectors are opaque to this code. *)
Context {vector : Type}.
(** [DBSCAN.fit_predict], the external density-based kernel. *)
Variable fit_predict : DBSCAN → list vector → kernel_error + list Z.

(** [cluster_logs(embeddings, eps=0.3, min_samples=5)]. *)
Definition cluster_logs (embeddings : list vector)
    (eps : Q) (min_samples : Z) : kernel_error + list Z :=
  let dbscan := {| eps := eps; min_samples := min_samples;
                   metric := lit "cosine" |} in
  let cluster_labels := fit_predict dbscan embeddings in
  cluster_labels.

Definition default_eps : Q := 3 # 10.
Definition default_min_samples : Z := 5.
End Kernel.

(** One iteration of the loop body: [clustered_logs[label].append(log)] on a
    [defaultdict(list)]. *)
Definition append_to {A} (clustered_logs : gmap Z (list A)) (p : A * Z)
    : gmap Z (list A) :=
  <[p.2 := default [] (clustered_logs !! p.2) ++ [p.1]]> clustered_logs.

(** [group_logs_by_cluster(logs, labels)]; [zip] stops at the shorter of its
    two arguments. *)
Definition group_logs_by_cluster {A} (logs : list A) (labels : list Z)
    : gmap Z (list A) :=
  foldl append_to ∅ (zip logs labels).

(** [sum(len(members) for members in clustered_logs.values())]. *)
Definition total_count {A} (clustered_logs : gmap Z (list A)) : nat :=
  map_fold (λ _ members acc, length members + acc)%nat 0%nat clustered_logs.

(** The lines that [zip] pairs with label [l], in order. *)
Definition paired_with {A} (l : Z) (ps : list (A * Z)) : list A :=
  (filter (λ p, p.2 = l) ps).*1.

(** The positions of the input that carry label [l], in input order. *)
Definition positions_of (l : Z) (labels : list Z) : list nat :=
  filter (λ i, labels !! i = Some l) (seq 0 (length labels)).

End Clustering.

(** ** Values and the JSON decoder *)

Module Json.

(** A Python [float] as the decoder produces it: the double nearest to
    [± digits * 10 ^ exp10], or one of the three constants the decoder
    accepts beyond the JSON grammar. *)
Inductive pyfloat :=
| FNaN
| FInfinity (negative : bool)
| FDec (negative : bool) (digits : N) (exp10 : Z).

(** The values [json.loads] returns.  A [dict] keeps its keys in insertion
    order and holds each key once. *)
#[warnings="-register-all"]
Inductive json :=
| JNull
| JBool (b : bool)
| JInt (n : Z)
| JFloat (f : pyfloat)
| JString (s : pystr)
| JArray (items : list json)
| JObject (members : list (pystr * json)).

(** [float(text) == 0.0]: correctly rounded conversion gives zero exactly
    for magnitudes up to half the smallest subnormal, [2 ^ -1075]. *)
Definition float_is_zero (f : pyfloat) : bool :=
  match f with
  | FNaN | FInfinity _ => false
  | FDec _ digits exp10 =>
      (digits =? 0)%N
      || ((exp10 <? 0) && (Z.of_N digits * 2 ^ 1075 <=? 10 ^ (- exp10)))
  end.

(** Truth value testing, as [not v] and [if v] use it. *)
Definition truthy (v : json) : bool :=
  match v with
  | JNull => false
  | JBool b => b
  | JInt n => negb (n =? 0)
  | JFloat f => negb (float_is_zero f)
  | JString s => negb (bool_decide (s = []))
  | JArray items => negb (bool_decide (items = []))
  | JObject members => negb (bool_decide (members = []))
  end.

(** [type(v).__name__]. *)
Definition type_name (v : json) : pystr :=
  match v with
  | JNull => lit "NoneType"
  | JBool _ => lit "bool"
  | JInt _ => lit "int"
  | JFloat _ => lit "float"
  | JString _ => lit "str"
  | JArray _ => lit "list"
  | JObject _ => lit "dict"
  end.

(** [d.get(key)] on the members of a [dict]. *)
Fixpoint dict_get (members : list (pystr * json)) (key : pystr) : option json :=
  match members with
  | [] => None
  | (k, v) :: rest => if decide (k = key) then Some v else dict_get rest key
  end.

(** [d[key] = v]: a present key keeps its place and takes the new value. *)
Fixpoint dict_set (members : list (pystr * json)) (key : pystr) (v : json)
    : list (pystr * json) :=
  match members with
  | [] => [(key, v)]
  | (k, v') :: rest =>
      if decide (k = key) then (k, v) :: rest
      else (k, v') :: dict_set rest key v
  end.

(** *** The decoder, after the scanner of the [json] package *)

Definition ch (a : ascii) : N := N_of_ascii a.
Definition quote : N := 34%N.
Definition backslash : N := 92%N.

(** [WHITESPACE_STR = ' \t\n\r']. *)
Definition is_ws (c : N) : bool :=
  ((c =? 32) || (c =? 9) || (c =? 10) || (c =? 13))%N.

Fixpoint skip_ws (s : pystr) : pystr :=
  match s with
  | c :: s' => if is_ws c then skip_ws s' else s
  | [] => []
  end.

Definition is_digit (c : N) : bool := ((48 <=? c) && (c <=? 57))%N.

Definition hex_value (c : N) : option N :=
  if is_digit c then Some (c - 48)%N
  else if ((65 <=? c) && (c <=? 70))%N then Some (c - 55)%N
  else if ((97 <=? c) && (c <=? 102))%N then Some (c - 87)%N
  else None.

(** [_decode_uXXXX]: exactly four hexadecimal digits. *)
Definition decode_uXXXX (a b c d : N) : option N :=
  x3 ← hex_value a; x2 ← hex_value b; x1 ← hex_value c; x0 ← hex_value d;
  Some (((x3 * 16 + x2) * 16 + x1) * 16 + x0)%N.

(** The [BACKSLASH] table of single-character escapes. *)
Definition simple_escape (esc : N) : option N :=
  if (esc =? quote)%N then Some quote
  else if (esc =? backslash)%N then Some backslash
  else if (esc =? ch "/")%N then Some (ch "/")
  else if (esc =? ch "b")%N then Some 8%N
  else if (esc =? ch "f")%N then Some 12%N
  else if (esc =? ch "n")%N then Some 10%N
  else if (esc =? ch "r")%N then Some 13%N
  else if (esc =? ch "t")%N then Some 9%N
  else None.

Definition is_high_surrogate (u : N) : bool := ((55296 <=? u) && (u <=? 56319))%N.
Definition is_low_surrogate (u : N) : bool := ((56320 <=? u) && (u <=? 57343))%N.

(** [scanstring(s, end, strict=True)], entered after the opening quote:
    the decoded text and what follows the closing quote. *)
Fixpoint scanstring (s : pystr) : option (pystr * pystr) :=
  match s with
  | [] => None
  | c :: s' =>
      if (c =? quote)%N then Some ([], s')
      else if (c <? 32)%N then None
      else if (c =? backslash)%N then
        match s' with
        | [] => None
        | esc :: s'' =>
            if (esc =? ch "u")%N then
              match s'' with
              | h1 :: h2 :: h3 :: h4 :: rest =>
                  uni ← decode_uXXXX h1 h2 h3 h4;
                  match rest with
                  | b :: u :: l1 :: l2 :: l3 :: l4 :: rest2 =>
                      if is_high_surrogate uni && (b =? backslash)%N
                         && (u =? ch "u")%N then
                        uni2 ← decode_uXXXX l1 l2 l3 l4;
                        if is_low_surrogate uni2 then
                          '(text, after) ← scanstring rest2;
                          Some ((65536 + ((uni - 55296) * 1024
                                          + (uni2 - 56320)))%N :: text, after)
                        else
                          '(text, after) ← scanstring rest;
                          Some (uni :: text, after)
                      else
                        '(text, after) ← scanstring rest;
                        Some (uni :: text, after)
                  | _ =>
                      '(text, after) ← scanstring rest;
                      Some (uni :: text, after)
                  end
              | _ => None
              end
            else
              char ← simple_escape esc;
              '(text, after) ← scanstring s'';
              Some (char :: text, after)
        end
      else
        '(text, after) ← scanstring s';
        Some (c :: text, after)
  end.

(** The longest run of decimal digits at the front of [s]. *)
Fixpoint span_digits (s : pystr) : pystr * pystr :=
  match s with
  | c :: s' =>
      if is_digit c then let '(ds, rest) := span_digits s' in (c :: ds, rest)
      else ([], s)
  | [] => ([], [])
  end.

Definition digits_value (ds : pystr) : N :=
  foldl (λ acc c, acc * 10 + (c - 48))%N 0%N ds.

(** [NUMBER_RE]: an optional minus sign; then a single zero, or a nonzero
    digit and any further digits; then optionally a point and one or more
    digits; then optionally [e] or [E], an optional sign and one or more
    digits.  A fraction or exponent with no digit is not part of the
    match. *)
Definition match_number (s : pystr) : option (json * pystr) :=
  let '(negative, s1) :=
    match s with
    | c :: r => if (c =? ch "-")%N then (true, r) else (false, s)
    | [] => (false, s)
    end in
  '(integer, s2) ←
    match s1 with
    | c :: r =>
        if (c =? ch "0")%N then Some ([c], r)
        else if is_digit c then Some (span_digits s1)
        else None
    | [] => None
    end;
  let '(frac, s3) :=
    match s2 with
    | c :: r =>
        if (c =? ch ".")%N then
          match span_digits r with
          | ([], _) => ([], s2)
          | (ds, rest) => (ds, rest)
          end
        else ([], s2)
    | [] => ([], s2)
    end in
  let '(exp, s4) :=
    match s3 with
    | c :: r =>
        if ((c =? ch "e") || (c =? ch "E"))%N then
          let '(exp_negative, r1) :=
            match r with
            | sg :: r' =>
                if (sg =? ch "-")%N then (true, r')
                else if (sg =? ch "+")%N then (false, r')
                else (false, r)
            | [] => (false, r)
            end in
          match span_digits r1 with
          | ([], _) => (None, s3)
          | (ds, rest) =>
              (Some (if exp_negative then - Z.of_N (digits_value ds)
                     else Z.of_N (digits_value ds)), rest)
          end
        else (None, s3)
    | [] => (None, s3)
    end in
  match frac, exp with
  | [], None =>
      let n := Z.of_N (digits_value integer) in
      Some (JInt (if negative then - n else n), s4)
  | _, _ =>
      Some (JFloat (FDec negative (digits_value (integer ++ frac))
                         (default 0 exp - Z.of_nat (length frac))), s4)
  end.

(** [s[idx:idx + len(word)] == word], giving what follows. *)
Fixpoint after_prefix (word s : pystr) : option pystr :=
  match word, s with
  | [], _ => Some s
  | w :: word', c :: s' => if (w =? c)%N then after_prefix word' s' else None
  | _ :: _, [] => None
  end.

(** [scan_once], [JSONArray] and [JSONObject].  [depth] bounds the number of
    nested calls and makes the recursion structural; a call that reaches
    depth zero gives [None]. *)
Fixpoint scan_once (depth : nat) (s : pystr) : option (json * pystr) :=
  match depth with
  | O => None
  | S depth =>
      match s with
      | [] => None
      | nextchar :: s' =>
          if (nextchar =? quote)%N then
            '(text, rest) ← scanstring s'; Some (JString text, rest)
          else if (nextchar =? ch "{")%N then
            match skip_ws s' with
            | c :: rest =>
                if (c =? ch "}")%N then Some (JObject [], rest)
                else if (c =? quote)%N then JSONObject_pairs depth rest []
                else None
            | [] => None
            end
          else if (nextchar =? ch "[")%N then
            match skip_ws s' with
            | c :: rest =>
                if (c =? ch "]")%N then Some (JArray [], rest)
                else JSONArray_values depth (c :: rest) []
            | [] => None
            end
          else
            match after_prefix (lit "null") s, after_prefix (lit "true") s,
                  after_prefix (lit "false") s with
            | Some rest, _, _ => Some (JNull, rest)
            | _, Some rest, _ => Some (JBool true, rest)
            | _, _, Some rest => Some (JBool false, rest)
            | None, None, None =>
                match match_number s with
                | Some r => Some r
                | None =>
                    match after_prefix (lit "NaN") s,
                          after_prefix (lit "Infinity") s,
                          after_prefix (lit "-Infinity") s with
                    | Some rest, _, _ => Some (JFloat FNaN, rest)
                    | _, Some rest, _ => Some (JFloat (FInfinity false), rest)
                    | _, _, Some rest => Some (JFloat (FInfinity true), rest)
                    | None, None, None => None
                    end
                end
            end
      end
  end

(** The loop of [JSONArray], positioned at the next value. *)
with JSONArray_values (depth : nat) (s : pystr) (values : list json)
    : option (json * pystr) :=
  match depth with
  | O => None
  | S depth =>
      '(value, s1) ← scan_once depth s;
      let values := values ++ [value] in
      match skip_ws s1 with
      | nextchar :: s2 =>
          if (nextchar =? ch "]")%N then Some (JArray values, s2)
          else if (nextchar =? ch ",")%N then
            JSONArray_values depth (skip_ws s2) values
          else None
      | [] => None
      end
  end

(** The loop of [JSONObject], positioned after the opening quote of a key. *)
with JSONObject_pairs (depth : nat) (s : pystr) (pairs : list (pystr * json))
    : option (json * pystr) :=
  match depth with
  | O => None
  | S depth =>
      '(key, s1) ← scanstring s;
      match skip_ws s1 with
      | colon :: s2 =>
          if (colon =? ch ":")%N then
            '(value, s3) ← scan_once depth (skip_ws s2);
            let pairs := dict_set pairs key value in
            match skip_ws s3 with
            | nextchar :: s4 =>
                if (nextchar =? ch "}")%N then Some (JObject pairs, s4)
                else if (nextchar =? ch ",")%N then
                  match skip_ws s4 with
                  | q :: s5 =>
                      if (q =? quote)%N then JSONObject_pairs depth s5 pairs
                      else None
                  | [] => None
                  end
                else None
            | [] => None
            end
          else None
      | [] => None
      end
  end.

(** [JSONDecoder.decode]: leading whitespace, one value, trailing
    whitespace, end of input.  [None] stands for a raised decoding error.
    The depth given to [scan_once] is two calls for each character of the
    input, and two more.  The decoder serves the concrete responses below;
    the general statements hold for every [json_loads]. *)
Definition decode (s : pystr) : option json :=
  '(obj, rest) ← scan_once (2 * length s + 2) (skip_ws s);
  match skip_ws rest with
  | [] => Some obj
  | _ :: _ => None
  end.

End Json.
Import Json.

(** ** agent_helper.py *)

Module AgentHelper.

(** *** Exceptions, the runtime and the effect monad *)

Inductive exn :=
| JSONDecodeError (msg : pystr)
| AttributeError (type attr : pystr)
| TypeError (msg : pystr)
| KeyError (key : pystr)
| ProviderError (msg : pystr).

(** [str(e)]. *)
Definition str_exn (e : exn) : pystr :=
  match e with
  | JSONDecodeError msg | TypeError msg | ProviderError msg => msg
  | AttributeError type attr =>
      lit "'" ++ type ++ lit "' object has no attribute '" ++ attr ++ lit "'"
  | KeyError key => lit "'" ++ key ++ lit "'"
  end.

#[global] Instance exn_ret : MRet (sum exn) := λ A a, inr a.
#[global] Instance exn_bind : MBind (sum exn) := λ A B k r,
  match r with
  | inr a => k a
  | inl e => inl e
  end.

(** What the module takes from outside the repository. *)
Class Runtime := {
  (** the Unicode case tables behind [str.lower], see [PyStr.lower] *)
  unicode_lower : pystr → nat → pystr;
  (** [json.loads]; [inl] is any exception it raises *)
  json_loads : pystr → exn + json;
  (** [os.environ] *)
  environ : gmap pystr pystr;
  (** [OllamaLLM(model=name)]: the exception it raises, if any *)
  OllamaLLM_init : pystr → option exn;
  (** [llm.invoke(prompt)], given the prompts invoked before it *)
  OllamaLLM_invoke : list pystr → pystr → exn + pystr
}.

(** Observable interactions with the environment and the provider. *)
Inductive event :=
| Getenv (name : pystr)
| Construct (model_name : pystr)
| Invoke (prompt : pystr).

Definition invoked (trace : list event) : list pystr :=
  omap (λ e, match e with Invoke p => Some p | _ => None end) trace.

(** A computation that may raise and that extends the trace. *)
Definition M (A : Type) : Type := list event → (exn + A) * list event.

#[global] Instance M_ret : MRet M := λ A a trace, (inr a, trace).
#[global] Instance M_bind : MBind M := λ A B k m trace,
  match m trace with
  | (inr a, trace') => k a trace'
  | (inl e, trace') => (inl e, trace')
  end.

Definition lift {A} (r : exn + A) : M A := λ trace, (r, trace).

(** [try: body  except Exception as e: handler e]. *)
Definition try_except {A} (body : M A) (handler : exn → M A) : M A :=
  λ trace,
    match body trace with
    | (inl e, trace') => handler e trace'
    | r => r
    end.

(** A [for] loop that collects one value per item. *)
Fixpoint for_each {A B} (body : A → M B) (items : list A) : M (list B) :=
  match items with
  | [] => mret []
  | x :: rest => y ← body x; ys ← for_each body rest; mret (y :: ys)
  end.

(** A comprehension whose element expression may raise. *)
Fixpoint comprehension {A B} (f : A → exn + B) (items : list A) : exn + list B :=
  match items with
  | [] => inr []
  | x :: rest =>
      match f x with
      | inl e => inl e
      | inr y =>
          match comprehension f rest with
          | inl e => inl e
          | inr ys => inr (y :: ys)
          end
      end
  end.

Section WithRuntime.
Context `{RT : Runtime}.

(** [os.getenv(name, default)]. *)
Definition getenv (name : pystr) (default_value : option pystr)
    : M (option pystr) :=
  λ trace,
    (inr (match environ !! name with
          | Some v => Some v
          | None => default_value
          end), trace ++ [Getenv name]).

Definition DEFAULT_MODEL : pystr := lit "llama3.2".

(** [is_ai_enhancement_enabled()]. *)
Definition is_ai_enhancement_enabled : M bool :=
  value ← getenv (lit "DISABLE_AI_ENHANCEMENT") (Some (lit "false"));
  mret (negb (bool_decide
          (lower unicode_lower (default [] value) = lit "true"))).

(** [LangchainOllamaLLMModel]: the wrapper re-raises what the provider
    raises, at construction and at each call. *)
Record LangchainOllamaLLMModel := { model_name : pystr }.

Definition LangchainOllamaLLMModel_init (model_name : pystr)
    : M LangchainOllamaLLMModel :=
  λ trace,
    (match OllamaLLM_init model_name with
     | Some e => inl e
     | None => inr {| model_name := model_name |}
     end, trace ++ [Construct model_name]).

Definition LangchainOllamaLLMModel_call (self : LangchainOllamaLLMModel)
    (prompt : pystr) : M pystr :=
  λ trace, (OllamaLLM_invoke (invoked trace) prompt, trace ++ [Invoke prompt]).
End WithRuntime.

(** *** Operations on decoded values *)

(** [v.get(key)] and [v.get(key, default)]. *)
Definition py_get (v : json) (key : pystr) (default_value : json) : exn + json :=
  match v with
  | JObject members => inr (default default_value (dict_get members key))
  | _ => inl (AttributeError (type_name v) (lit "get"))
  end.

(** [v[key]] for a string key. *)
Definition py_getitem (v : json) (key : pystr) : exn + json :=
  match v with
  | JObject members =>
      match dict_get members key with
      | Some x => inr x
      | None => inl (KeyError key)
      end
  | JArray _ => inl (TypeError (lit "list indices must be integers or slices, not str"))
  | JString _ => inl (TypeError (lit "string indices must be integers"))
  | _ => inl (TypeError (lit "'" ++ type_name v ++ lit "' object is not subscriptable"))
  end.

(** [v.strip()]. *)
Definition py_strip (v : json) : exn + pystr :=
  match v with
  | JString s => inr (strip s)
  | _ => inl (AttributeError (type_name v) (lit "strip"))
  end.

Definition nl : pystr := [10%N].

(** *** Records *)

(** One element of [cluster_data]: a dict in which each of the keys
    [cluster_id], [log_count], [logs] and [cluster] may be absent. *)
Module Input.
Record t := {
  cluster_id : option Z;
  log_count : option Z;
  logs : option (list pystr);
  cluster : option pystr
}.
End Input.

(** The dict returned by [summarize_cluster]. *)
Module Summary.
Record t := {
  cluster : json;
  summary : json;
  problem : json;
  solution : json;
  ai_summarized : bool
}.
End Summary.

(** One element of the [clusters] list of the result. *)
Module Summarized.
Record t := {
  cluster_id : Z;
  log_count : Z;
  cluster : json;
  summary : json;
  problem : json;
  solution : json;
  original_logs : list pystr;
  ai_summarized : bool
}.
End Summarized.

(** The dict returned by [summarize_clusters]. *)
Module Result.
Record t := {
  alerts : json;
  clusters : list Summarized.t;
  ai_enhancement_used : bool;
  ollama_model_used : option pystr;
  ai_error : option pystr
}.
End Result.

Section WithRuntime.
Context `{RT : Runtime}.

(** The f-string [prompt] of [summarize_cluster]. *)
Definition cluster_prompt (cluster_id : Z) (logs : list pystr)
    (log_examples_text : pystr) : pystr :=
  join nl [
    [];
    lit "You are a professional log analyst. Analyze the following "
       ++ lit "log entries from a cluster and provide a detailed analysis "
       ++ lit "of the common patterns, issues, or themes. Based on the log "
       ++ lit "content, assign a descriptive title to the cluster that "
       ++ lit "reflects the type of logs it contains (e.g., "
       ++ lit "'Authentication Errors', 'Database Connection Issues', "
       ++ lit "'HTTP Request Failures').";
    [];
    lit "Cluster ID: "
       ++ str_of_Z cluster_id;
    lit "Log Count: "
       ++ str_of_Z (Z.of_nat (length logs));
    lit "Sample Logs:";
    log_examples_text;
    [];
    lit "Provide a JSON response with:";
    lit "- cluster: A descriptive title for the cluster based on the "
       ++ lit "type of logs (e.g., 'Authentication Errors', 'Database "
       ++ lit "Connection Issues'). Ensure the title is concise and "
       ++ lit "specific to the log content.";
    lit "- summary: A concise description of the common patterns or "
       ++ lit "issues in the cluster.";
    lit "- problem: A specific problem description (if identifiable, "
       ++ lit "else "
       ++ dq
       ++ lit "General cluster pattern"
       ++ dq
       ++ lit ").";
    lit "- solution: Detailed resolution steps (if applicable, else "
       ++ dq
       ++ lit "Review logs for further investigation."
       ++ dq
       ++ lit ").";
    [];
    lit "Return only the JSON object.";
    []
  ].

(** [summarize_cluster(model, cluster_id, logs)]. *)
Definition summarize_cluster (model : LangchainOllamaLLMModel)
    (cluster_id : Z) (logs : list pystr) : M Summary.t :=
  let log_examples := take 3 logs in
  let log_examples_text :=
    if bool_decide (log_examples = []) then lit "No logs available"
    else join nl log_examples in
  let prompt := cluster_prompt cluster_id logs log_examples_text in
  try_except
    (_ ← getenv (lit "DEBUG") None;
     response ← LangchainOllamaLLMModel_call model prompt;
     parsed ← lift (json_loads (strip response));
     _ ← getenv (lit "DEBUG") None;
     summary ← lift (py_get parsed (lit "summary") JNull);
     too_short ←
       (if negb (truthy summary) then mret true
        else
          text ← lift (py_getitem parsed (lit "summary"));
          stripped ← lift (py_strip text);
          mret (bool_decide (length stripped < 20)%nat));
     if too_short : bool then
       mret {|
         Summary.cluster := JString (lit "Cluster " ++ str_of_Z cluster_id);
         Summary.summary :=
           JString (lit "Cluster " ++ str_of_Z cluster_id ++ lit " contains "
                    ++ str_of_Z (Z.of_nat (length logs))
                    ++ lit " logs with varied content.");
         Summary.problem := JString (lit "General cluster pattern");
         Summary.solution :=
           JString (lit "Review logs for further investigation.");
         Summary.ai_summarized := false
       |}
     else
       cluster ← lift (py_get parsed (lit "cluster")
                         (JString (lit "Cluster " ++ str_of_Z cluster_id)));
       summary ← lift (py_get parsed (lit "summary")
                         (JString (lit "Cluster " ++ str_of_Z cluster_id
                                   ++ lit " summary")));
       problem ← lift (py_get parsed (lit "problem")
                         (JString (lit "General cluster pattern")));
       solution ← lift (py_get parsed (lit "solution")
                          (JString (lit "Review logs for further investigation.")));
       mret {|
         Summary.cluster := cluster;
         Summary.summary := summary;
         Summary.problem := problem;
         Summary.solution := solution;
         Summary.ai_summarized := true
       |})
    (λ e,
       mret {|
         Summary.cluster := JString (lit "Cluster " ++ str_of_Z cluster_id);
         Summary.summary :=
           JString (lit "Cluster " ++ str_of_Z cluster_id ++ lit " contains "
                    ++ str_of_Z (Z.of_nat (length logs))
                    ++ lit " logs with varied content.");
         Summary.problem := JString (lit "General cluster pattern");
         Summary.solution :=
           JString (lit "Review logs for further investigation.");
         Summary.ai_summarized := false
       |}).

(** [d[key]] on an element of [cluster_data]. *)
Definition item {A} (field : option A) (key : string) : exn + A :=
  match field with
  | Some x => inr x
  | None => inl (KeyError (lit key))
  end.

(** The element expression of the comprehension that builds the basic
    summaries; the source has it twice, with the same text, for the
    disabled case and for the outer handler. *)
Definition basic_summary (cluster : Input.t) : exn + Summarized.t :=
  cluster_id ← item (Input.cluster_id cluster) "cluster_id";
  log_count ← item (Input.log_count cluster) "log_count";
  logs ← item (Input.logs cluster) "logs";
  inr {|
    Summarized.cluster_id := cluster_id;
    Summarized.log_count := log_count;
    Summarized.cluster := JString (lit "Cluster " ++ str_of_Z cluster_id);
    Summarized.summary :=
      JString (lit "Cluster " ++ str_of_Z cluster_id ++ lit " contains "
               ++ str_of_Z log_count ++ lit " logs with varied content.");
    Summarized.problem := JString (lit "General cluster pattern");
    Summarized.solution :=
      JString (lit "Review logs for further investigation.");
    Summarized.original_logs := logs;
    Summarized.ai_summarized := false
  |}.

(** One part of [all_logs_text]. *)
Definition cluster_logs_text (cluster : Input.t) : exn + pystr :=
  cluster_id ← item (Input.cluster_id cluster) "cluster_id";
  logs ← item (Input.logs cluster) "logs";
  inr (lit "Cluster " ++ str_of_Z cluster_id ++ lit " ("
       ++ default (lit "Unnamed Cluster") (Input.cluster cluster)
       ++ lit "):" ++ nl ++ join nl (take 3 logs)).

(** The f-string [alerts_prompt]. *)
Definition alerts_prompt (all_logs_text : pystr) : pystr :=
  join nl [
    [];
    lit "You are a professional log analyst. Analyze the following "
       ++ lit "log clusters to identify meaningful insights about the log "
       ++ lit "file, such as critical issues, trends, anomalies, or other "
       ++ lit "significant observations. Select a variable number of logs "
       ++ lit "from the entire log file that provide valuable insights "
       ++ lit "into system behavior or issues. For each selected log, "
       ++ lit "provide an explanation of its significance and specific "
       ++ lit "suggestions or actions to address or leverage the insight. "
       ++ lit "Do not generate insights for individual clusters; instead, "
       ++ lit "select logs from across all clusters to highlight the most "
       ++ lit "relevant observations.";
    [];
    lit "Log Clusters:";
    all_logs_text;
    [];
    lit "Provide a JSON response as a list of objects, each "
       ++ lit "containing:";
    lit "  - log: The specific log entry selected.";
    lit "  - explanation: A clear explanation of the significance of "
       ++ lit "the log (e.g., issue, trend, or anomaly).";
    lit "  - suggestions: Specific suggestions or actions to address "
       ++ lit "or leverage the insight.";
    [];
    lit "Return only the JSON list.";
    []
  ].

(** The test that guards [alerts = parsed_alerts]. *)
Definition has_alert_keys (alert : json) : bool :=
  match alert with
  | JObject members =>
      forallb (λ key, bool_decide (is_Some (dict_get members key)))
              [lit "log"; lit "explanation"; lit "suggestions"]
  | _ => false
  end.

Definition alerts_accepted (parsed_alerts : json) : bool :=
  match parsed_alerts with
  | JArray items =>
      bool_decide (0 < length items)%nat && forallb has_alert_keys items
  | _ => false
  end.

(** [summarize_clusters(cluster_data)]. *)
Definition summarize_clusters (cluster_data : list Input.t) : M Result.t :=
  enabled ← is_ai_enhancement_enabled;
  if negb enabled then
    clusters ← lift (comprehension basic_summary cluster_data);
    mret {|
      Result.alerts := JString (lit "No alerts identified");
      Result.clusters := clusters;
      Result.ai_enhancement_used := false;
      Result.ollama_model_used := None;
      Result.ai_error := None
    |}
  else
    try_except
      (model ← LangchainOllamaLLMModel_init DEFAULT_MODEL;
       summarized_clusters ←
         for_each (λ cluster,
           let cluster_id := default (-1) (Input.cluster_id cluster) in
           let logs := default [] (Input.logs cluster) in
           let log_count :=
             default (Z.of_nat (length logs)) (Input.log_count cluster) in
           summary_data ← summarize_cluster model cluster_id logs;
           mret {|
             Summarized.cluster_id := cluster_id;
             Summarized.log_count := log_count;
             Summarized.cluster := Summary.cluster summary_data;
             Summarized.summary := Summary.summary summary_data;
             Summarized.problem := Summary.problem summary_data;
             Summarized.solution := Summary.solution summary_data;
             Summarized.original_logs := logs;
             Summarized.ai_summarized := Summary.ai_summarized summary_data
           |}) cluster_data;
       parts ← lift (comprehension cluster_logs_text cluster_data);
       let all_logs_text :=
         let joined := join nl parts in
         if bool_decide (joined = []) then lit "No logs available"
         else joined in
       alerts ←
         try_except
           (alerts_response ←
              LangchainOllamaLLMModel_call model (alerts_prompt all_logs_text);
            parsed_alerts ← lift (json_loads (strip alerts_response));
            if alerts_accepted parsed_alerts then mret parsed_alerts
            else mret (JString (lit "No alerts identified")))
           (λ e, mret (JString (lit "No alerts identified")));
       mret {|
         Result.alerts := alerts;
         Result.clusters := summarized_clusters;
         Result.ai_enhancement_used := true;
         Result.ollama_model_used := Some DEFAULT_MODEL;
         Result.ai_error := None
       |})
      (λ e,
         clusters ← lift (comprehension basic_summary cluster_data);
         mret {|
           Result.alerts := JString (lit "No alerts identified");
           Result.clusters := clusters;
           Result.ai_enhancement_used := false;
           Result.ollama_model_used := None;
           Result.ai_error := Some (str_exn e)
         |}).

End WithRuntime.

End AgentHelper.

(** ** The specification's vocabulary for agent_helper.py *)

Module Spec.
Import AgentHelper.

(** The sentinel that stands for the absence of alerts. *)
Definition no_alerts : json := JString (lit "No alerts identified").

(** The fallback record of the specification: a function of the cluster id
    and the count, and of nothing else. *)
Definition fallback_summary (cluster_id : Z) (count : Z) : Summary.t :=
  {| Summary.cluster := JString (lit "Cluster " ++ str_of_Z cluster_id);
     Summary.summary :=
       JString (lit "Cluster " ++ str_of_Z cluster_id ++ lit " contains "
                ++ str_of_Z count ++ lit " logs with varied content.");
     Summary.problem := JString (lit "General cluster pattern");
     Summary.solution := JString (lit "Review logs for further investigation.");
     Summary.ai_summarized := false |}.

(** The validation rule of the specification: the decoded response is an
    object whose [summary] is a string of at least 20 characters once
    stripped. *)
Definition summary_passes (parsed : json) : bool :=
  match parsed with
  | JObject members =>
      match dict_get members (lit "summary") with
      | Some (JString text) => bool_decide (20 ≤ length (strip text))%nat
      | _ => false
      end
  | _ => false
  end.

(** The record of an accepted response: each field from the response when
    its key is present, and its named default otherwise. *)
Definition ai_summary (cluster_id : Z) (members : list (pystr * json)) : Summary.t :=
  {| Summary.cluster :=
       default (JString (lit "Cluster " ++ str_of_Z cluster_id))
               (dict_get members (lit "cluster"));
     Summary.summary :=
       default (JString (lit "Cluster " ++ str_of_Z cluster_id ++ lit " summary"))
               (dict_get members (lit "summary"));
     Summary.problem :=
       default (JString (lit "General cluster pattern"))
               (dict_get members (lit "problem"));
     Summary.solution :=
       default (JString (lit "Review logs for further investigation."))
               (dict_get members (lit "solution"));
     Summary.ai_summarized := true |}.

(** The prompt that [summarize_cluster] sends for a cluster. *)
Definition prompt_of (cluster_id : Z) (logs : list pystr) : pystr :=
  cluster_prompt cluster_id logs
    (if bool_decide (take 3 logs = []) then lit "No logs available"
     else join nl (take 3 logs)).

(** The keys [summarize_clusters] reads with a default. *)
Definition id_of (cluster : Input.t) : Z := default (-1) (Input.cluster_id cluster).
Definition logs_of (cluster : Input.t) : list pystr := default [] (Input.logs cluster).
Definition count_of (cluster : Input.t) : Z :=
  default (Z.of_nat (length (logs_of cluster))) (Input.log_count cluster).

(** The interchange format: each element has [cluster_id], [log_count] and
    [logs]. *)
Definition well_formed (cluster : Input.t) : Prop :=
  is_Some (Input.cluster_id cluster) ∧ is_Some (Input.log_count cluster)
  ∧ is_Some (Input.logs cluster).

(** A cluster of the input together with the summary made for it. *)
Definition summarized (cluster : Input.t) (s : Summary.t) : Summarized.t :=
  {| Summarized.cluster_id := id_of cluster;
     Summarized.log_count := count_of cluster;
     Summarized.cluster := Summary.cluster s;
     Summarized.summary := Summary.summary s;
     Summarized.problem := Summary.problem s;
     Summarized.solution := Summary.solution s;
     Summarized.original_logs := logs_of cluster;
     Summarized.ai_summarized := Summary.ai_summarized s |}.

(** The record of a cluster when no provider is consulted: the fallback for
    its id and its [log_count]. *)
Definition unsummarized (cluster : Input.t) : Summarized.t :=
  summarized cluster (fallback_summary (id_of cluster) (count_of cluster)).

(** The text one cluster contributes to the insight request. *)
Definition part_of (cluster : Input.t) : pystr :=
  lit "Cluster " ++ str_of_Z (id_of cluster) ++ lit " ("
  ++ default (lit "Unnamed Cluster") (Input.cluster cluster)
  ++ lit "):" ++ nl ++ join nl (take 3 (logs_of cluster)).

(** The prompt of the insight request for a list of clusters. *)
Definition insight_prompt (cluster_data : list Input.t) : pystr :=
  alerts_prompt
    (let joined := join nl (part_of <$> cluster_data) in
     if bool_decide (joined = []) then lit "No logs available" else joined).

(** The schema for the insight response: a non-empty array of objects that
    each contain every key of [keys]. *)
Definition follows_schema (keys : list pystr) (parsed : json) : Prop :=
  ∃ items, parsed = JArray items ∧ items ≠ []
    ∧ Forall (λ alert, ∃ members, alert = JObject members
                ∧ Forall (λ key, is_Some (dict_get members key)) keys) items.

(** The keys the code requires, and the keys the claim names. *)
Definition required_keys : list pystr :=
  [lit "log"; lit "explanation"; lit "suggestions"].
Definition claimed_keys : list pystr :=
  [lit "log"; lit "explanation"; lit "suggestion"].

Definition gate_name : pystr := lit "DISABLE_AI_ENHANCEMENT".

Section WithRuntime.
Context `{RT : Runtime}.

(** What [summarize_cluster] makes of the outcome of its provider call. *)
Definition summary_of_outcome (cluster_id : Z) (logs : list pystr)
    (outcome : exn + pystr) : Summary.t :=
  match outcome with
  | inr response =>
      match json_loads (strip response) with
      | inr (JObject members as parsed) =>
          if summary_passes parsed then ai_summary cluster_id members
          else fallback_summary cluster_id (Z.of_nat (length logs))
      | _ => fallback_summary cluster_id (Z.of_nat (length logs))
      end
  | inl _ => fallback_summary cluster_id (Z.of_nat (length logs))
  end.

(** The events of one call of [summarize_cluster]. *)
Definition summarize_events (cluster_id : Z) (logs : list pystr)
    (outcome : exn + pystr) : list event :=
  [Getenv (lit "DEBUG"); Invoke (prompt_of cluster_id logs)]
  ++ match outcome with
     | inr response =>
         match json_loads (strip response) with
         | inr _ => [Getenv (lit "DEBUG")]
         | inl _ => []
         end
     | inl _ => []
     end.

(** What [summarize_clusters] makes of the outcome of the insight call. *)
Definition alerts_of_outcome (outcome : exn + pystr) : json :=
  match outcome with
  | inr response =>
      match json_loads (strip response) with
      | inr parsed => if alerts_accepted parsed then parsed else no_alerts
      | inl _ => no_alerts
      end
  | inl _ => no_alerts
  end.

(** The value the gate reads, and whether it disables the enhancement. *)
Definition gate_value : pystr := default (lit "false") (environ !! gate_name).
Definition disabled : Prop := lower unicode_lower gate_value = lit "true".

(** The outcome of the provider call for the cluster at position [i], after
    the prompts in [history] and those of the clusters before it. *)
Definition outcome_at (history : list pystr) (cluster_data : list Input.t)
    (i : nat) (cluster : Input.t) : exn + pystr :=
  OllamaLLM_invoke
    (history ++ ((λ c, prompt_of (id_of c) (logs_of c)) <$> take i cluster_data))
    (prompt_of (id_of cluster) (logs_of cluster)).

(** The outcome of the insight call, after the prompts of all clusters. *)
Definition insight_outcome (history : list pystr) (cluster_data : list Input.t)
    : exn + pystr :=
  OllamaLLM_invoke
    (history ++ ((λ c, prompt_of (id_of c) (logs_of c)) <$> cluster_data))
    (insight_prompt cluster_data).

(** The [clusters] list of an enhanced run: the record at position [i] comes
    from the cluster at position [i] and from the outcome of its own call. *)
Definition records_of (history : list pystr) (cluster_data : list Input.t)
    : list Summarized.t :=
  imap (λ i c, summarized c (summary_of_outcome (id_of c) (logs_of c)
                               (outcome_at history cluster_data i c)))
       cluster_data.

(** The provider call failed, or its response was rejected. *)
Definition provider_failed (outcome : exn + pystr) : Prop :=
  ∃ e, outcome = inl e.
Definition response_rejected (outcome : exn + pystr) : Prop :=
  ∃ response, outcome = inr response
    ∧ match json_loads (strip response) with
      | inr parsed => summary_passes parsed = false
      | inl _ => True
      end.

End WithRuntime.

(** The prompts of the per-cluster calls, in order. *)
Definition prompts_of (cluster_data : list Input.t) : list pystr :=
  (λ c, prompt_of (id_of c) (logs_of c)) <$> cluster_data.

(** The events of the loop over the clusters. *)
Definition loop_event (e : event) : Prop :=
  e = Getenv (lit "DEBUG") ∨ ∃ p, e = Invoke p.

(** [m] only appends events to the trace, and each of them satisfies [P]. *)
Definition appends {A} (P : event → Prop) (m : M A) : Prop :=
  ∀ trace, ∃ events, (m trace).2 = trace ++ events ∧ Forall P events.

End Spec.

(** ** A reference runtime *)

Module Reference.
Import AgentHelper.

(** [json.loads] by the decoder above; the text of the error is not
    reconstructed. *)
Definition loads (s : pystr) : exn + json :=
  match decode s with
  | Some v => inr v
  | None => inl (JSONDecodeError [])
  end.

(** A runtime with the decoder above, the given environment and provider, and
    case tables that leave non-ASCII code points as they are. *)
Definition runtime (env : gmap pystr pystr) (init : pystr → option exn)
    (invoke : list pystr → pystr → exn + pystr) : Runtime :=
  {| unicode_lower := λ s i, option_list (s !! i);
     json_loads := loads;
     environ := env;
     OllamaLLM_init := init;
     OllamaLLM_invoke := invoke |}.

(** A provider that answers every prompt with the same text. *)
Definition answering (response : pystr) : Runtime :=
  runtime ∅ (λ _, None) (λ _ _, inr response).

(** A provider whose every call raises. *)
Definition failing (msg : pystr) : Runtime :=
  runtime ∅ (λ _, None) (λ _ _, inl (ProviderError msg)).

(** An environment in which the enhancement is switched off. *)
Definition switched_off (value : pystr) : Runtime :=
  runtime {[ lit "DISABLE_AI_ENHANCEMENT" := value ]} (λ _, None)
          (λ _ _, inl (ProviderError (lit "unreachable"))).

End Reference.

(** ** clustering.py and ui_app.py: reading, exporting and counting *)

Module Pipeline.
Import Clustering AgentHelper.

(** What opening a file with an encoding and reading all of its lines gives:
    the lines, with their line ends, or one of the two kinds of exception
    that [load_logs_from_file] tells apart. *)
Inductive read_result :=
| ReadLines (lines : list pystr)
| UnicodeDecodeError (msg : pystr)
| ReadException (msg : pystr).

(** The loop of [load_logs_from_file] over the encodings still to try. *)
Fixpoint load_with (read : pystr → read_result) (encodings : list pystr)
    : list pystr :=
  match encodings with
  | [] => []
  | encoding :: rest =>
      match read encoding with
      | ReadLines file =>
          (λ line, strip line) <$> filter (λ line, strip line ≠ []) file
      | UnicodeDecodeError _ => load_with read rest
      | ReadException _ => []
      end
  end.

(** [load_logs_from_file(log_path)]; [open_file] is the file system. *)
Definition load_logs_from_file (open_file : pystr → pystr → read_result)
    (log_path : pystr) : list pystr :=
  let encodings := [lit "utf-8"; lit "latin-1"; lit "iso-8859-1"] in
  load_with (open_file log_path) encodings.

(** [sorted(clustered_logs.items())]: the keys are distinct, so the order of
    the pairs is the order of their keys. *)
Definition by_key {A} (p q : Z * A) : Prop := p.1 ≤ q.1.

#[global] Instance by_key_dec {A} : RelDecision (@by_key A).
Proof. intros p q. unfold by_key. apply _. Defined.

Definition sorted_items {A} (clustered_logs : gmap Z (list A))
    : list (Z * list A) :=
  merge_sort by_key (map_to_list clustered_logs).

(** [export_data] of [export_clusters_to_json]. *)
Definition export_data (clustered_logs : gmap Z (list pystr)) : list Input.t :=
  (λ '(cluster_id, logs),
     {| Input.cluster_id := Some cluster_id;
        Input.log_count := Some (Z.of_nat (length logs));
        Input.logs := Some logs;
        Input.cluster := None |}) <$> sorted_items clustered_logs.

(** [cluster_data] of [run_analysis] in ui_app.py. *)
Definition cluster_data (clustered_logs : gmap Z (list pystr)) : list Input.t :=
  (λ '(cid, logs),
     {| Input.cluster_id := Some cid;
        Input.log_count := Some (Z.of_nat (length logs));
        Input.logs := Some logs;
        Input.cluster := None |}) <$> sorted_items clustered_logs.

(** [Counter(labels)]. *)
Definition Counter (labels : list Z) : gmap Z nat :=
  foldl (λ counts label, <[label := S (default 0%nat (counts !! label))]> counts)
        ∅ labels.

(** [len([cid for cid in cluster_sizes if cid != -1])]. *)
Definition n_clusters (cluster_sizes : gmap Z nat) : nat :=
  length (filter (λ cid, cid ≠ -1) (map_to_list cluster_sizes).*1).

(** [cluster_sizes.get(-1, 0)]. *)
Definition n_noise (cluster_sizes : gmap Z nat) : nat :=
  default 0%nat (cluster_sizes !! (-1)).

(** [os.environ[name] = value]. *)
Definition setenv `{RT : Runtime} (name value : pystr) : Runtime :=
  {| unicode_lower := unicode_lower;
     json_loads := json_loads;
     environ := <[name := value]> environ;
     OllamaLLM_init := OllamaLLM_init;
     OllamaLLM_invoke := OllamaLLM_invoke |}.

(** The part of [run_analysis] of ui_app.py from the assignment of the
    environment variable to the call of [summarize_clusters], for the
    contents of the logs that were loaded and the labels that the clustering
    gave them. *)
Definition run_analysis_summarize `{RT : Runtime} (disable_ai : bool)
    (log_contents : list pystr) (labels : list Z) : M Result.t :=
  let RT' :=
    setenv (lit "DISABLE_AI_ENHANCEMENT")
           (if disable_ai then lit "true" else lit "false") in
  let clustered_logs := group_logs_by_cluster log_contents labels in
  summarize_clusters (RT := RT') (cluster_data clustered_logs).

End Pipeline.

(** ** analyze_logs.py and ui_app.py: finding and searching files *)

Module Files.

(** [s.endswith(suffix)] and [needle in hay]. *)
Definition endswith (s suffix : pystr) : bool :=
  bool_decide (suffix `suffix_of` s).

Fixpoint contains (needle hay : pystr) : bool :=
  bool_decide (needle `prefix_of` hay)
  || match hay with
     | [] => false
     | _ :: rest => contains needle rest
     end.

Section FindLogFiles.
(** [os.path.join]. *)
Variable path_join : pystr → pystr → pystr.

(** The inner loop of [find_log_files] over the files of one directory; the
    [break] leaves this loop only. *)
Fixpoint scan_directory (max_files : Z) (root : pystr) (files : list pystr)
    (log_files : list pystr) : list pystr :=
  match files with
  | [] => log_files
  | file :: rest =>
      let log_files :=
        if endswith file (lit ".log") then log_files ++ [path_join root file]
        else log_files in
      if bool_decide (max_files ≤ Z.of_nat (length log_files)) then log_files
      else scan_directory max_files root rest log_files
  end.

(** [find_log_files(directory, max_files)], on what [os.walk(directory)]
    yields: for each directory its path, its subdirectories and its files. *)
Definition find_log_files (walk : list (pystr * list pystr * list pystr))
    (max_files : Z) : list pystr :=
  foldl (λ log_files '(root, _, files),
           scan_directory max_files root files log_files) [] walk.

(** The paths of all files whose name ends in [.log], in the order of the
    walk. *)
Definition all_log_paths (walk : list (pystr * list pystr * list pystr))
    : list pystr :=
  '(root, _, files) ← walk;
  path_join root <$> filter (λ file, endswith file (lit ".log") = true) files.
End FindLogFiles.

(** One element of the result of [search_files_for_term]. *)
Module Match.
Record t := {
  file : pystr;
  line_number : Z;
  content : pystr
}.
End Match.

(** What reading a file gives: the lines that could be read, and the
    exception that ended the reading, if any.  A file that cannot be opened
    has no line and an exception. *)
Record file_read := {
  lines_read : list pystr;
  read_error : option pystr
}.

Section SearchFiles.
(** The case tables behind [str.lower], see [PyStr.lower]. *)
Variable unicode_lower : pystr → nat → pystr.
(** [open(file_path, 'r', encoding='utf-8', errors='replace')]. *)
Variable open_file : pystr → file_read.

(** The loop over the lines of one file, from line index [i]; the flag tells
    whether the loop ended in its [break]. *)
Fixpoint search_lines (search_term : pystr) (max_matches : Z)
    (file_path : pystr) (i : nat) (lines : list pystr)
    (matches : list Match.t) : list Match.t * bool :=
  match lines with
  | [] => (matches, false)
  | line :: rest =>
      if contains (lower unicode_lower search_term) (lower unicode_lower line)
      then
        let matches :=
          matches ++ [{| Match.file := file_path;
                         Match.line_number := Z.of_nat i + 1;
                         Match.content := strip line |}] in
        if bool_decide (max_matches ≤ Z.of_nat (length matches))
        then (matches, true)
        else search_lines search_term max_matches file_path (S i) rest matches
      else search_lines search_term max_matches file_path (S i) rest matches
  end.

(** The loop over the files.  An exception while reading a file is caught
    inside the loop, after which the next file is read. *)
Fixpoint search_loop (search_term : pystr) (max_matches : Z)
    (files : list pystr) (matches : list Match.t) : list Match.t :=
  match files with
  | [] => matches
  | file_path :: rest =>
      let f := open_file file_path in
      let '(matches, broke) :=
        search_lines search_term max_matches file_path 0 (lines_read f) matches in
      match (if broke then None else read_error f) with
      | Some e => search_loop search_term max_matches rest matches
      | None =>
          if bool_decide (max_matches ≤ Z.of_nat (length matches)) then matches
          else search_loop search_term max_matches rest matches
      end
  end.

(** [search_files_for_term(files, search_term, max_matches)]. *)
Definition search_files_for_term (files : list pystr) (search_term : pystr)
    (max_matches : Z) : list Match.t :=
  search_loop search_term max_matches files [].
End SearchFiles.

End Files.

(** ** analyze_logs.py: suggesting solutions *)

Module Solutions.
Import Files.

(** One element of [analysis['error_patterns']]. *)
Module ErrorPattern.
Record t := {
  component : pystr;
  pattern : pystr;
  count : Z
}.
End ErrorPattern.

(** The [analysis] dict; each key may be absent.  [components] keeps the
    order of its keys. *)
Module Analysis.
Record t := {
  total_entries : option Z;
  severity_distribution : option (list (pystr * Z));
  components : option (list (pystr * Z));
  error_patterns : option (list ErrorPattern.t)
}.
End Analysis.

Module Solution.
Record t := {
  problem : pystr;
  solution : pystr
}.
End Solution.

(** [max(items, key=lambda x: x[1])] from [best] on: a later item replaces the
    best one only when its count is greater. *)
Fixpoint max_by_count (best : pystr * Z) (items : list (pystr * Z)) : pystr * Z :=
  match items with
  | [] => best
  | x :: rest => max_by_count (if bool_decide (best.2 < x.2) then x else best) rest
  end.

(** [d.get(key, 0)] on a dict kept as a list of pairs. *)
Fixpoint get_count (d : list (pystr * Z)) (key : pystr) : Z :=
  match d with
  | [] => 0
  | (k, v) :: rest => if decide (k = key) then v else get_count rest key
  end.

Section WithLower.
Variable unicode_lower : pystr → nat → pystr.

Definition connection_solution : Solution.t :=
  {| Solution.problem := lit "Connection issues";
     Solution.solution :=
       lit "Check network connectivity between services and verify that all "
       ++ lit "dependent services are running. Look for firewall or DNS issues." |}.

Definition permission_solution : Solution.t :=
  {| Solution.problem := lit "Permission issues";
     Solution.solution :=
       lit "Verify file and resource permissions. Check that service accounts "
       ++ lit "have the necessary access rights." |}.

Definition resource_solution : Solution.t :=
  {| Solution.problem := lit "Resource constraints";
     Solution.solution :=
       lit "Check system resources (memory, CPU, disk space). Consider scaling "
       ++ lit "up infrastructure or optimizing resource usage." |}.

Definition database_solution : Solution.t :=
  {| Solution.problem := lit "Database issues";
     Solution.solution :=
       lit "Check database connectivity, query performance, and database logs. "
       ++ lit "Verify that database indices are properly set up." |}.

Definition general_solution (most_common_component : pystr) : Solution.t :=
  {| Solution.problem :=
       lit "Multiple errors in " ++ most_common_component ++ lit " component";
     Solution.solution :=
       lit "Review the " ++ most_common_component
       ++ lit " component logs in detail and check recent code changes or "
       ++ lit "configuration updates to this component." |}.

(** [word in pattern.lower()]. *)
Definition mentions (word : string) (pattern : pystr) : bool :=
  contains (lit word) (lower unicode_lower pattern).

(** [any(test(pattern) for item in error_patterns
         for pattern in [item['pattern'].lower()])]. *)
Definition any_pattern (test : pystr → bool)
    (error_patterns : list ErrorPattern.t) : bool :=
  existsb (λ item, test (lower unicode_lower (ErrorPattern.pattern item)))
          error_patterns.

(** [suggest_solutions(analysis)]. *)
Definition suggest_solutions (analysis : Analysis.t) : list Solution.t :=
  let error_patterns := default [] (Analysis.error_patterns analysis) in
  let solutions := [] in
  let connection_errors :=
    any_pattern (λ pattern, mentions "connection" pattern
                            || mentions "timeout" pattern
                            || mentions "connect" pattern) error_patterns in
  let solutions :=
    if connection_errors then solutions ++ [connection_solution] else solutions in
  let permission_errors :=
    any_pattern (λ pattern, mentions "permission" pattern
                            || mentions "access" pattern
                            || mentions "denied" pattern) error_patterns in
  let solutions :=
    if permission_errors then solutions ++ [permission_solution] else solutions in
  let resource_errors :=
    any_pattern (λ pattern, mentions "memory" pattern || mentions "cpu" pattern
                            || mentions "capacity" pattern
                            || mentions "full" pattern) error_patterns in
  let solutions :=
    if resource_errors then solutions ++ [resource_solution] else solutions in
  let db_errors :=
    any_pattern (λ pattern, mentions "database" pattern || mentions "db" pattern
                            || mentions "sql" pattern
                            || mentions "query" pattern) error_patterns in
  let solutions :=
    if db_errors then solutions ++ [database_solution] else solutions in
  match solutions with
  | [] =>
      if bool_decide (0 < default 0 (Analysis.total_entries analysis)) then
        let severity_dist := default [] (Analysis.severity_distribution analysis) in
        let error_count :=
          get_count severity_dist (lit "ERROR")
          + get_count severity_dist (lit "CRITICAL")
          + get_count severity_dist (lit "FATAL") in
        let components := default [] (Analysis.components analysis) in
        let most_common_component :=
          match components with
          | first :: others => (max_by_count first others).1
          | [] => lit "unknown"
          end in
        solutions ++ [general_solution most_common_component]
      else solutions
  | _ :: _ => solutions
  end.
End WithLower.

End Solutions.

(** ** Sample collaborators and inputs *)

Module Samples.
Import Clustering.

(** A kernel that validates its input before clustering, in the way array
    validation with a minimum of one sample does: zero samples are refused
    with a [ValueError].  On other inputs it labels every point as noise. *)
Definition validating_kernel (params : DBSCAN) (X : list (list Q))
    : kernel_error + list Z :=
  match X with
  | [] => inl (ValueError (lit "Found array with 0 sample(s) while a minimum of 1 is required by DBSCAN."))
  | _ => inr (replicate (length X) (-1))
  end.

(** A kernel that accepts every input. *)
Definition lenient_kernel (params : DBSCAN) (X : list (list Q))
    : kernel_error + list Z :=
  inr (replicate (length X) (-1)).

(** The response [{"summary": "ok"}]. *)
Definition short_summary_response : pystr :=
  lit "{" ++ dq ++ lit "summary" ++ dq ++ lit ": " ++ dq ++ lit "ok" ++ dq ++ lit "}".

(** A response with a summary of 24 characters once stripped, and a title, and no
    [problem] or [solution]. *)
Definition partial_response : pystr :=
  lit "{" ++ dq ++ lit "summary" ++ dq ++ lit ": " ++ dq
  ++ lit "Database timeouts recur." ++ lit "  " ++ dq ++ lit ", "
  ++ dq ++ lit "cluster" ++ dq ++ lit ": " ++ dq ++ lit "Database Errors" ++ dq
  ++ lit "}".

(** An insight response whose only element has the keys [log],
    [explanation] and [suggestion]. *)
Definition singular_key_response : pystr :=
  lit "[{" ++ dq ++ lit "log" ++ dq ++ lit ": " ++ dq ++ lit "db timeout" ++ dq
  ++ lit ", " ++ dq ++ lit "explanation" ++ dq ++ lit ": " ++ dq
  ++ lit "the database is slow" ++ dq
  ++ lit ", " ++ dq ++ lit "suggestion" ++ dq ++ lit ": " ++ dq
  ++ lit "add an index" ++ dq ++ lit "}]".

(** The same response with the key [suggestions]. *)
Definition plural_key_response : pystr :=
  lit "[{" ++ dq ++ lit "log" ++ dq ++ lit ": " ++ dq ++ lit "db timeout" ++ dq
  ++ lit ", " ++ dq ++ lit "explanation" ++ dq ++ lit ": " ++ dq
  ++ lit "the database is slow" ++ dq
  ++ lit ", " ++ dq ++ lit "suggestions" ++ dq ++ lit ": " ++ dq
  ++ lit "add an index" ++ dq ++ lit "}]".

(** Two clusters in the interchange format. *)
Definition two_clusters : list AgentHelper.Input.t :=
  [ {| AgentHelper.Input.cluster_id := Some (-1);
       AgentHelper.Input.log_count := Some 1;
       AgentHelper.Input.logs := Some [lit "2024-01-02T00:00:00 INFO startup"];
       AgentHelper.Input.cluster := None |};
    {| AgentHelper.Input.cluster_id := Some 0;
       AgentHelper.Input.log_count := Some 2;
       AgentHelper.Input.logs :=
         Some [lit "2024-01-01T00:00:00 ERROR db timeout";
               lit "2024-01-01T00:00:05 ERROR db timeout retry"];
       AgentHelper.Input.cluster := None |} ].

(** The record of a cluster that was not summarized by the provider. *)
Definition summarized_fallback_sample (cluster_id log_count : Z)
    (logs : list pystr) : AgentHelper.Summarized.t :=
  {| AgentHelper.Summarized.cluster_id := cluster_id;
     AgentHelper.Summarized.log_count := log_count;
     AgentHelper.Summarized.cluster :=
       JString (lit "Cluster " ++ str_of_Z cluster_id);
     AgentHelper.Summarized.summary :=
       JString (lit "Cluster " ++ str_of_Z cluster_id ++ lit " contains "
                ++ str_of_Z log_count ++ lit " logs with varied content.");
     AgentHelper.Summarized.problem := JString (lit "General cluster pattern");
     AgentHelper.Summarized.solution :=
       JString (lit "Review logs for further investigation.");
     AgentHelper.Summarized.original_logs := logs;
     AgentHelper.Summarized.ai_summarized := false |}.

Definition three_lines : list pystr :=
  [lit "2024-01-01T00:00:00 ERROR db timeout";
   lit "2024-01-01T00:00:05 ERROR db timeout retry";
   lit "2024-01-02T00:00:00 INFO startup"].

End Samples.

(** ** Further vocabulary and samples *)

Module More.
Import Clustering AgentHelper Spec Pipeline Files Solutions.

(** The first of the keys of the interchange format that an element lacks. *)
Definition first_missing (cluster : Input.t) : option pystr :=
  match Input.cluster_id cluster, Input.log_count cluster, Input.logs cluster with
  | None, _, _ => Some (lit "cluster_id")
  | Some _, None, _ => Some (lit "log_count")
  | Some _, Some _, None => Some (lit "logs")
  | Some _, Some _, Some _ => None
  end.

(** An element has the keys that the enhanced path reads without a default. *)
Definition has_id_and_logs (cluster : Input.t) : Prop :=
  is_Some (Input.cluster_id cluster) ∧ is_Some (Input.logs cluster).

(** The paths of the log files of one directory. *)
Definition log_paths (path_join : pystr → pystr → pystr) (root : pystr)
    (files : list pystr) : list pystr :=
  path_join root <$> filter (λ file, endswith file (lit ".log") = true) files.

(** A match reports line [j], counted from [i], of the lines [lines] of
    [file_path]: its number is one more than the index of the line, its
    content is the stripped line, and the line contains the search term when
    both are in lower case. *)
Definition reports (unicode_lower : pystr → nat → pystr)
    (search_term file_path : pystr) (i : nat)
    (lines : list pystr) (m : Match.t) : Prop :=
  ∃ j line, lines !! j = Some line
    ∧ Match.file m = file_path
    ∧ Match.line_number m = Z.of_nat (i + j) + 1
    ∧ Match.content m = strip line
    ∧ ∃ before after,
        lower unicode_lower line
        = before ++ lower unicode_lower search_term ++ after.

(** Some pattern, in lower case, contains one of [words]. *)
Definition mentions_any (unicode_lower : pystr → nat → pystr)
    (words : list string) (error_patterns : list ErrorPattern.t) : bool :=
  any_pattern unicode_lower
    (λ pattern, existsb (λ word, mentions unicode_lower word pattern) words)
    error_patterns.

Definition connection_words : list string := ["connection"; "timeout"; "connect"].
Definition permission_words : list string := ["permission"; "access"; "denied"].
Definition resource_words : list string := ["memory"; "cpu"; "capacity"; "full"].
Definition database_words : list string := ["database"; "db"; "sql"; "query"].

Definition specific_solutions : list Solution.t :=
  [connection_solution; permission_solution; resource_solution; database_solution].


(** An element without [log_count], and one without [logs]. *)
Definition without_log_count : Input.t :=
  {| Input.cluster_id := Some 4;
     Input.log_count := None;
     Input.logs := Some [lit "disk full"; lit "disk full again"];
     Input.cluster := None |}.

Definition without_logs : Input.t :=
  {| Input.cluster_id := Some 5;
     Input.log_count := Some 1;
     Input.logs := None;
     Input.cluster := None |}.

(** A file system on which every read fails to decode. *)
Definition undecodable (log_path encoding : pystr) : read_result :=
  UnicodeDecodeError (lit "invalid start byte").

(** An analysis without error patterns, with three components. *)
Definition sample_analysis : Analysis.t :=
  {| Analysis.total_entries := Some 3;
     Analysis.severity_distribution := None;
     Analysis.components := Some [(lit "auth", 1); (lit "db", 2); (lit "cache", 2)];
     Analysis.error_patterns := Some [] |}.

End More.

(** * Properties of clustering.py *)

Section GroupingFacts.
Import Clustering.
Context {A : Type}.
Implicit Types (logs : list A) (labels : list Z) (l : Z)
               (m : gmap Z (list A)) (ps : list (A * Z)).

Lemma foldl_append_to_lookup ps m l :
  foldl append_to m ps !! l =
    match paired_with l ps with
    | [] => m !! l
    | xs => Some (default [] (m !! l) ++ xs)
    end.
Proof.
  revert m. induction ps as [|[x l'] ps IH]; intros m; first done.
  cbn [foldl]. rewrite IH. unfold paired_with, append_to. cbn [fst snd].
  rewrite filter_cons. cbn [snd]. destruct (decide (l' = l)) as [->|Hne].
  - rewrite lookup_insert_eq. cbn.
    destruct ((filter _ ps).*1) as [|y ys]; first done.
    by rewrite <- app_assoc.
  - by rewrite lookup_insert_ne.
Qed.

Lemma paired_with_nil_iff l logs labels :
  length logs = length labels →
  paired_with l (zip logs labels) = [] ↔ l ∉ labels.
Proof.
  intros Hlen. unfold paired_with. split.
  - intros Hnil%fmap_nil_inv Hin.
    rewrite <- (snd_zip logs labels) in Hin by lia.
    apply list_elem_of_fmap in Hin as [p [-> Hp]].
    by eapply (filter_nil_not_elem_of _ _ p) in Hnil.
  - intros Hnot.
    destruct (filter (λ p, p.2 = l) (zip logs labels)) as [|p ps'] eqn:Hf;
      first done.
    assert (p ∈ filter (λ p, p.2 = l) (zip logs labels)) as Hin
      by (rewrite Hf; left).
    apply list_elem_of_filter in Hin as [<- Hin].
    destruct Hnot. rewrite <- (snd_zip logs labels) by lia.
    apply list_elem_of_fmap. by exists p.
Qed.

Lemma filter_seq_S (P : nat → Prop) `{!∀ i, Decision (P i)} j n :
  filter P (seq (S j) n) = S <$> filter (λ i, P (S i)) (seq j n).
Proof.
  revert j. induction n as [|n IH]; intros j; first done.
  cbn [seq]. rewrite !filter_cons, IH.
  destruct (decide (P (S j))); by rewrite ?fmap_cons.
Qed.

Lemma positions_of_cons l l' labels :
  positions_of l (l' :: labels) =
    (if decide (l' = l) then [0%nat] else []) ++ (S <$> positions_of l labels).
Proof.
  unfold positions_of. cbn [length seq]. rewrite filter_cons, filter_seq_S.
  cbn [lookup list_lookup].
  destruct (decide (l' = l)) as [->|Hne].
  - by rewrite decide_True.
  - by rewrite decide_False by congruence.
Qed.

Lemma paired_with_positions l logs labels :
  length logs = length labels →
  Forall2 (λ i x, logs !! i = Some x)
          (positions_of l labels) (paired_with l (zip logs labels)).
Proof.
  revert labels. induction logs as [|x logs IH]; intros [|l' labels] Hlen;
    simplify_eq/=; first by constructor.
  rewrite positions_of_cons. unfold paired_with in *. rewrite filter_cons.
  cbn [snd]. specialize (IH labels ltac:(done)).
  assert (Forall2 (λ i y, (x :: logs) !! i = Some y)
            (S <$> positions_of l labels) (filter (λ p, p.2 = l) (zip logs labels)).*1)
    as Hrest.
  { apply Forall2_fmap_l. eapply Forall2_impl; [exact IH|]. done. }
  destruct (decide (l' = l)); cbn; [by constructor | done].
Qed.

Lemma elem_of_positions_of l labels i :
  i ∈ positions_of l labels ↔ labels !! i = Some l.
Proof.
  unfold positions_of. rewrite list_elem_of_filter, elem_of_seq. split.
  - by intros [? _].
  - intros Hi. split; [done|]. apply lookup_lt_Some in Hi. lia.
Qed.

Lemma NoDup_positions_of l labels : NoDup (positions_of l labels).
Proof. apply NoDup_filter, NoDup_seq. Qed.

Lemma total_count_append_to m p :
  total_count (append_to m p) = S (total_count m).
Proof.
  destruct p as [x l]. unfold append_to, total_count. cbn [fst snd].
  assert (∀ (j1 j2 : Z) (z1 z2 : list A) (y : nat),
    (length z1 + (length z2 + y) = length z2 + (length z1 + y))%nat) as Hcomm
    by (intros; lia).
  destruct (m !! l) as [old|] eqn:Hl; cbn [default].
  - rewrite <- (insert_delete_eq m).
    rewrite map_fold_insert_L; [|by intros; apply Hcomm|by rewrite lookup_delete_eq].
    rewrite <- (insert_delete_id m l old) at 2 by done.
    rewrite (map_fold_insert_L _ _ l old);
      [|by intros; apply Hcomm|by rewrite lookup_delete_eq].
    rewrite length_app. cbn. lia.
  - rewrite map_fold_insert_L; [|by intros; apply Hcomm|done]. done.
Qed.

Lemma total_count_foldl ps m :
  total_count (foldl append_to m ps) = (total_count m + length ps)%nat.
Proof.
  revert m. induction ps as [|p ps IH]; intros m; cbn [foldl length]; first lia.
  rewrite IH, total_count_append_to. lia.
Qed.

Lemma total_count_group logs labels :
  total_count (group_logs_by_cluster logs labels)
  = (length logs `min` length labels)%nat.
Proof.
  unfold group_logs_by_cluster. rewrite total_count_foldl, length_zip.
  unfold total_count. by rewrite map_fold_empty.
Qed.

Lemma group_lookup logs labels l :
  length logs = length labels →
  (l ∈ labels →
     ∃ members, group_logs_by_cluster logs labels !! l = Some members
       ∧ members ≠ []
       ∧ Forall2 (λ i x, logs !! i = Some x) (positions_of l labels) members)
  ∧ (l ∉ labels → group_logs_by_cluster logs labels !! l = None).
Proof.
  intros Hlen. unfold group_logs_by_cluster.
  rewrite foldl_append_to_lookup, lookup_empty. cbn [default app].
  pose proof (paired_with_nil_iff l logs labels Hlen) as Hnil.
  pose proof (paired_with_positions l logs labels Hlen) as Hpos.
  destruct (paired_with l (zip logs labels)) as [|y ys] eqn:Hpw.
  - split; [|done]. intros Hin. by apply Hnil in Hin.
  - split.
    + intros _. by eexists.
    + intros Hnot. by apply Hnil in Hnot.
Qed.

End GroupingFacts.

Section ClusteringClaims.
Import Clustering Samples.

(** C7: for lines and labels of the same length, grouping partitions the
    lines.  The cluster of a label that occurs holds exactly the lines at
    the positions carrying that label, in input order, and a label that does
    not occur has no cluster; so every position lies in the member list of
    exactly one cluster, once; the member counts add up to the number of
    lines; and the noise label -1, when it occurs, has an ordinary non-empty
    cluster like any other label. *)
Theorem group_logs_by_cluster_partition {A} (logs : list A) (labels : list Z) :
  length logs = length labels →
  let clustered := group_logs_by_cluster logs labels in
  (∀ l, l ∈ labels →
     ∃ members, clustered !! l = Some members
       ∧ Forall2 (λ i x, logs !! i = Some x) (positions_of l labels) members)
  ∧ (∀ l, l ∉ labels → clustered !! l = None)
  ∧ (∀ i, (i < length logs)%nat →
       ∃ l, (is_Some (clustered !! l) ∧ i ∈ positions_of l labels)
            ∧ ∀ l', is_Some (clustered !! l') ∧ i ∈ positions_of l' labels → l' = l)
  ∧ (∀ l, NoDup (positions_of l labels))
  ∧ total_count clustered = length logs
  ∧ (-1 ∈ labels →
       ∃ members, clustered !! (-1) = Some members ∧ members ≠ []).
Proof.
  intros Hlen clustered. subst clustered. repeat split.
  - intros l Hl. destruct (group_lookup logs labels l Hlen) as [Hin _].
    destruct (Hin Hl) as (members & Hm & _ & Hpos). by exists members.
  - intros l Hl. by apply (group_lookup logs labels l Hlen).
  - intros i Hi. rewrite Hlen in Hi.
    destruct (lookup_lt_is_Some_2 labels i Hi) as [l Hl]. exists l.
    assert (l ∈ labels) as Hmem by by eapply list_elem_of_lookup_2.
    split.
    + split; [|by apply elem_of_positions_of].
      destruct (group_lookup logs labels l Hlen) as [Hin _].
      destruct (Hin Hmem) as (members & -> & _). by eexists.
    + intros l' [_ Hi']. apply elem_of_positions_of in Hi'. congruence.
  - intros l. apply NoDup_positions_of.
  - rewrite total_count_group. lia.
  - intros Hnoise. destruct (group_lookup logs labels (-1) Hlen) as [Hin _].
    destruct (Hin Hnoise) as (members & Hm & Hne & _). by exists members.
Qed.

Lemma group_logs_by_cluster_partition_witness :
  length three_lines = length [0; 0; -1]
  ∧ total_count (group_logs_by_cluster three_lines [0; 0; -1]) = 3%nat
  ∧ ∃ members, group_logs_by_cluster three_lines [0; 0; -1] !! (-1) = Some members
               ∧ members ≠ [].
Proof.
  split; [reflexivity|].
  pose proof (group_logs_by_cluster_partition three_lines [0; 0; -1] eq_refl)
    as (_ & _ & _ & _ & Hcount & Hnoise).
  split; [exact Hcount|]. apply Hnoise. set_solver.
Defined.

(** C8 as stated fails: with two lines and one label nothing aborts; the
    call returns a map that holds the first line only. *)
Lemma group_logs_by_cluster_mismatch_silent :
  length [lit "first"; lit "second"] ≠ length [0]
  ∧ group_logs_by_cluster [lit "first"; lit "second"] [0] = {[ 0 := [lit "first"] ]}
  ∧ total_count (group_logs_by_cluster [lit "first"; lit "second"] [0]) = 1%nat.
Proof.
  split; [cbn; lia|]. split.
  - unfold group_logs_by_cluster. cbn [zip zip_with foldl]. unfold append_to.
    cbn [fst snd]. rewrite lookup_empty. done.
  - by rewrite total_count_group.
Qed.

(** C8, amended: grouping has no length check and no error result.  Lines
    and labels are paired by position up to the shorter of the two
    sequences; what lies beyond is ignored, and the member counts add up to
    the shorter length. *)
Theorem group_logs_by_cluster_truncates {A} (logs : list A) (labels : list Z) :
  let n := (length logs `min` length labels)%nat in
  group_logs_by_cluster logs labels
    = group_logs_by_cluster (take n logs) (take n labels)
  ∧ total_count (group_logs_by_cluster logs labels) = n.
Proof.
  intros n. split; [|apply total_count_group].
  unfold group_logs_by_cluster. f_equal. subst n. symmetry.
  rewrite <- zip_with_take. apply take_ge. rewrite length_zip. lia.
Qed.

(** C9 as stated fails for a kernel that refuses zero samples: the error
    reaches the caller of [cluster_logs]. *)
Lemma cluster_logs_empty_raises :
  cluster_logs validating_kernel [] default_eps default_min_samples ≠ inr [].
Proof. discriminate. Qed.

(** C9, amended: [cluster_logs] has no case for an empty input.  It hands
    the vectors and the parameters, with the cosine metric, to the kernel
    and returns the kernel's outcome unchanged; on an empty sequence the
    labels are empty exactly when the kernel answers so, and an error of the
    kernel is the error of [cluster_logs]. *)
Theorem cluster_logs_delegates {vector : Type}
    (fit_predict : DBSCAN → list vector → kernel_error + list Z)
    (embeddings : list vector) (eps : Q) (min_samples : Z) :
  let params := {| eps := eps; min_samples := min_samples;
                   metric := lit "cosine" |} in
  cluster_logs fit_predict embeddings eps min_samples
    = fit_predict params embeddings
  ∧ (cluster_logs fit_predict [] eps min_samples = inr []
     ↔ fit_predict params [] = inr [])
  ∧ (∀ e, fit_predict params [] = inl e →
          cluster_logs fit_predict [] eps min_samples = inl e).
Proof. done. Qed.

Lemma cluster_logs_delegates_witness :
  cluster_logs validating_kernel [] default_eps default_min_samples
  = inl (ValueError (lit "Found array with 0 sample(s) while a minimum of 1 is required by DBSCAN.")).
Proof.
  by apply (cluster_logs_delegates validating_kernel [] default_eps
              default_min_samples).
Defined.

End ClusteringClaims.

(** * Properties of agent_helper.py *)

Section AgentFacts.
Import AgentHelper Spec.
Context `{RT : Runtime}.

Lemma invoked_app t1 t2 : invoked (t1 ++ t2) = invoked t1 ++ invoked t2.
Proof. unfold invoked. apply omap_app. Qed.

Lemma summarize_cluster_run model cluster_id logs trace :
  let outcome := OllamaLLM_invoke (invoked trace) (prompt_of cluster_id logs) in
  summarize_cluster model cluster_id logs trace
  = (inr (summary_of_outcome cluster_id logs outcome),
     trace ++ summarize_events cluster_id logs outcome).
Proof.
  intros outcome. subst outcome.
  unfold summarize_cluster, try_except, summary_of_outcome, summarize_events.
  fold (prompt_of cluster_id logs).
  unfold mbind, M_bind, mret, M_ret, getenv, LangchainOllamaLLMModel_call, lift.
  rewrite invoked_app. cbn [invoked omap app]. rewrite app_nil_r.
  rewrite <- !app_assoc. cbn [app].
  destruct (OllamaLLM_invoke _ _) as [e|response]; first done.
  destruct (json_loads _) as [e|parsed]; first done.
  destruct parsed as [| | | | |items|members]; try done.
  unfold py_get, py_getitem, summary_passes.
  destruct (dict_get members (lit "summary")) as [summary|] eqn:Hsummary;
    cbn [default from_option id]; [|by rewrite ?app_nil_r].
  destruct summary as [|b|n|f|text|items|members']; cbn [truthy negb py_strip];
    try done.
  - by destruct b.
  - by destruct (n =? 0).
  - by destruct (float_is_zero f).
  - destruct (bool_decide (text = [])) eqn:Hempty; cbn [negb].
    + apply bool_decide_eq_true_1 in Hempty. subst text. reflexivity.
    + destruct (decide (length (strip text) < 20)%nat) as [Hshort|Hlong].
      * rewrite (bool_decide_true _ Hshort), bool_decide_false by lia. done.
      * rewrite (bool_decide_false _ Hlong), bool_decide_true by lia.
        unfold ai_summary. by rewrite Hsummary.
  - by destruct (bool_decide (items = [])).
  - by destruct (bool_decide (members' = [])).
Qed.

Lemma outcome_at_cons history c0 rest i c :
  outcome_at history (c0 :: rest) (S i) c
  = outcome_at (history ++ [prompt_of (id_of c0) (logs_of c0)]) rest i c.
Proof. unfold outcome_at. cbn [take fmap list_fmap]. by rewrite <- app_assoc. Qed.

Lemma summarize_events_loop cluster_id logs outcome :
  Forall loop_event (summarize_events cluster_id logs outcome)
  ∧ invoked (summarize_events cluster_id logs outcome) = [prompt_of cluster_id logs].
Proof.
  unfold summarize_events. split.
  - repeat case_match; cbn [app];
      repeat (apply Forall_cons; split; [unfold loop_event; eauto|]);
      apply Forall_nil_2.
  - repeat case_match; done.
Qed.

Lemma for_each_run (body : Input.t → M Summarized.t) cluster_data trace :
  (∀ c t,
     let outcome := OllamaLLM_invoke (invoked t) (prompt_of (id_of c) (logs_of c)) in
     body c t = (inr (summarized c (summary_of_outcome (id_of c) (logs_of c) outcome)),
                 t ++ summarize_events (id_of c) (logs_of c) outcome)) →
  ∃ events,
    for_each body cluster_data trace
    = (inr (records_of (invoked trace) cluster_data), trace ++ events)
    ∧ Forall loop_event events
    ∧ invoked events = prompts_of cluster_data.
Proof.
  intros Hbody. revert trace. induction cluster_data as [|c rest IH]; intros trace.
  - exists []. by rewrite app_nil_r.
  - cbn [for_each]. unfold mbind at 1, M_bind. rewrite Hbody.
    set (outcome := OllamaLLM_invoke _ _).
    destruct (summarize_events_loop (id_of c) (logs_of c) outcome) as [Hev Hinv].
    destruct (IH (trace ++ summarize_events (id_of c) (logs_of c) outcome))
      as (events & Hrun & Hevents & Hinvoked).
    unfold mbind, M_bind. rewrite Hrun.
    exists (summarize_events (id_of c) (logs_of c) outcome ++ events).
    split; [|split].
    + unfold mret, M_ret. rewrite <- app_assoc. f_equal. f_equal.
      unfold records_of. cbn [imap]. f_equal.
      * unfold outcome_at. cbn [take fmap list_fmap]. by rewrite app_nil_r.
      * apply imap_ext. intros i c' _. cbv beta. unfold compose.
        rewrite outcome_at_cons. by rewrite invoked_app, Hinv.
    + by apply Forall_app.
    + rewrite invoked_app, Hinv, Hinvoked. done.
Qed.


Lemma gate_run trace :
  is_ai_enhancement_enabled trace
  = (inr (negb (bool_decide (lower unicode_lower gate_value = lit "true"))),
     trace ++ [Getenv gate_name]).
Proof.
  unfold is_ai_enhancement_enabled, mbind, M_bind, getenv, mret, M_ret, gate_value.
  fold gate_name. by destruct (environ !! gate_name).
Qed.

Lemma comprehension_basic_summary cluster_data :
  Forall well_formed cluster_data →
  comprehension basic_summary cluster_data = inr (unsummarized <$> cluster_data).
Proof.
  induction 1 as [|c rest (Hid & Hcount & Hlogs) _ IH]; first done.
  cbn [comprehension fmap list_fmap]. rewrite IH.
  destruct c as [[cid|] [count|] [logs|] title];
    try (by destruct Hid as [? [=]]); try (by destruct Hcount as [? [=]]);
    try (by destruct Hlogs as [? [=]]).
Qed.

Lemma comprehension_cluster_logs_text cluster_data :
  Forall well_formed cluster_data →
  comprehension cluster_logs_text cluster_data = inr (part_of <$> cluster_data).
Proof.
  induction 1 as [|c rest (Hid & Hcount & Hlogs) _ IH]; first done.
  cbn [comprehension fmap list_fmap]. rewrite IH.
  destruct c as [[cid|] [count|] [logs|] title];
    try (by destruct Hid as [? [=]]); try (by destruct Hcount as [? [=]]);
    try (by destruct Hlogs as [? [=]]).
Qed.

Lemma disabled_run cluster_data trace :
  disabled →
  Forall well_formed cluster_data →
  summarize_clusters cluster_data trace
  = (inr {| Result.alerts := no_alerts;
            Result.clusters := unsummarized <$> cluster_data;
            Result.ai_enhancement_used := false;
            Result.ollama_model_used := None;
            Result.ai_error := None |},
     trace ++ [Getenv gate_name]).
Proof.
  intros Hoff Hwf. unfold summarize_clusters. unfold mbind at 1, M_bind.
  rewrite gate_run. rewrite bool_decide_true by done. cbn [negb].
  unfold mbind, M_bind, lift. by rewrite comprehension_basic_summary.
Qed.

Lemma enabled_run cluster_data trace :
  ¬ disabled →
  OllamaLLM_init DEFAULT_MODEL = None →
  Forall well_formed cluster_data →
  ∃ events,
    summarize_clusters cluster_data trace
    = (inr {| Result.alerts :=
                alerts_of_outcome (insight_outcome (invoked trace) cluster_data);
              Result.clusters := records_of (invoked trace) cluster_data;
              Result.ai_enhancement_used := true;
              Result.ollama_model_used := Some DEFAULT_MODEL;
              Result.ai_error := None |},
       trace ++ Getenv gate_name :: Construct DEFAULT_MODEL :: events)
    ∧ Forall loop_event events.
Proof.
  intros Hon Hinit Hwf. unfold summarize_clusters. unfold mbind at 1, M_bind.
  rewrite gate_run. rewrite bool_decide_false by done. cbn [negb].
  unfold try_except at 1. unfold mbind at 1, M_bind.
  unfold LangchainOllamaLLMModel_init. rewrite Hinit.
  unfold mbind at 1, M_bind.
  edestruct (for_each_run) as (events & -> & Hevents & Hinvoked).
  { intros c t. cbv zeta. unfold mbind, M_bind.
    rewrite summarize_cluster_run. reflexivity. }
  unfold mbind at 1, M_bind, lift. rewrite comprehension_cluster_logs_text by done.
  unfold mbind at 1, M_bind, try_except, LangchainOllamaLLMModel_call.
  unfold mbind, M_bind, mret, M_ret.
  fold (insight_prompt cluster_data).
  rewrite !invoked_app, Hinvoked. cbn [invoked omap app]. rewrite !app_nil_r.
  fold (prompts_of cluster_data). unfold prompts_of.
  fold (insight_outcome (invoked trace) cluster_data).
  exists (events ++ [Invoke (insight_prompt cluster_data)]).
  split.
  - unfold alerts_of_outcome.
    destruct (insight_outcome _ _) as [e|response].
    + rewrite <- !app_assoc. done.
    + destruct (json_loads _) as [e|parsed].
      * rewrite <- !app_assoc. done.
      * destruct (alerts_accepted parsed); rewrite <- !app_assoc; done.
  - apply Forall_app. split; [done|]. apply Forall_singleton. right. eauto.
Qed.


Lemma appends_ret {A} P (a : A) : appends P (mret a).
Proof. intros t. exists []. by rewrite app_nil_r. Qed.

Lemma appends_lift {A} P (r : exn + A) : appends P (lift r).
Proof. intros t. exists []. by rewrite app_nil_r. Qed.

Lemma appends_bind {A B} P (m : M A) (k : A → M B) :
  appends P m → (∀ a, appends P (k a)) → appends P (m ≫= k).
Proof.
  intros Hm Hk t. unfold mbind, M_bind. destruct (Hm t) as (evs & Ht & Hevs).
  destruct (m t) as [[e|a] t']; cbn [snd] in *; subst t'.
  - by exists evs.
  - destruct (Hk a (t ++ evs)) as (evs' & -> & Hevs').
    exists (evs ++ evs'). split; [by rewrite app_assoc|by apply Forall_app].
Qed.

Lemma appends_try {A} P (body : M A) (handler : exn → M A) :
  appends P body → (∀ e, appends P (handler e)) → appends P (try_except body handler).
Proof.
  intros Hm Hk t. unfold try_except. destruct (Hm t) as (evs & Ht & Hevs).
  destruct (body t) as [[e|a] t']; cbn [snd] in *; subst t'.
  - destruct (Hk e (t ++ evs)) as (evs' & -> & Hevs').
    exists (evs ++ evs'). split; [by rewrite app_assoc|by apply Forall_app].
  - by exists evs.
Qed.

Lemma appends_for_each {A B} P (body : A → M B) (items : list A) :
  (∀ x, appends P (body x)) → appends P (for_each body items).
Proof.
  intros Hbody. induction items as [|x rest IH]; cbn [for_each].
  - apply appends_ret.
  - apply appends_bind; [done|]. intros y. apply appends_bind; [done|].
    intros ys. apply appends_ret.
Qed.

Lemma appends_getenv P name default_value :
  P (Getenv name) → appends P (getenv name default_value).
Proof. intros HP t. exists [Getenv name]. split; [done|by apply Forall_singleton]. Qed.

Lemma appends_call P model prompt :
  P (Invoke prompt) → appends P (LangchainOllamaLLMModel_call model prompt).
Proof. intros HP t. exists [Invoke prompt]. split; [done|by apply Forall_singleton]. Qed.

Lemma appends_init P name :
  P (Construct name) → appends P (LangchainOllamaLLMModel_init name).
Proof. intros HP t. exists [Construct name]. split; [done|by apply Forall_singleton]. Qed.

Lemma appends_summarize_cluster model cluster_id logs :
  appends (λ e, e ≠ Getenv gate_name) (summarize_cluster model cluster_id logs).
Proof.
  intros t. rewrite summarize_cluster_run. cbn [snd]. eexists. split; [done|].
  eapply Forall_impl; [apply summarize_events_loop|].
  intros e [->|[p ->]]; discriminate.
Qed.

Lemma gate_read_first cluster_data trace :
  ∃ events,
    (summarize_clusters cluster_data trace).2 = trace ++ Getenv gate_name :: events
    ∧ Forall (λ e, e ≠ Getenv gate_name) events.
Proof.
  unfold summarize_clusters. unfold mbind at 1, M_bind. rewrite gate_run.
  set (P := λ e : event, e ≠ Getenv gate_name).
  assert (∀ e, appends P (
    clusters ← lift (comprehension basic_summary cluster_data);
    mret {| Result.alerts := JString (lit "No alerts identified");
            Result.clusters := clusters;
            Result.ai_enhancement_used := false;
            Result.ollama_model_used := None;
            Result.ai_error := e |})) as Hbasic.
  { intros e. apply appends_bind; [apply appends_lift|]. intros. apply appends_ret. }
  match goal with
  | |- ∃ events, ((if ?b then ?m1 else ?m2) ?t).2 = _ ∧ _ =>
      assert (appends P (if b then m1 else m2)) as Happ
  end.
  { destruct (negb _); [apply Hbasic|].
    apply appends_try; [|intros e; apply Hbasic].
    apply appends_bind; [by apply appends_init|]. intros model.
    apply appends_bind.
    { apply appends_for_each. intros c. cbv zeta.
      apply appends_bind; [apply appends_summarize_cluster|].
      intros. apply appends_ret. }
    intros records. apply appends_bind; [apply appends_lift|]. intros parts.
    apply appends_bind; [|intros; apply appends_ret].
    apply appends_try; [|intros; apply appends_ret].
    apply appends_bind; [by apply appends_call|]. intros response.
    apply appends_bind; [apply appends_lift|]. intros parsed.
    destruct (alerts_accepted parsed); apply appends_ret. }
  destruct (Happ (trace ++ [Getenv gate_name])) as (events & Hev & HP).
  exists events. by rewrite Hev, <- app_assoc.
Qed.

End AgentFacts.

Section SummarizeClusterClaims.
Import AgentHelper Spec Samples.

(** C2: [summarize_cluster] never raises: for every runtime, cluster id, list
    of logs and earlier trace it returns a record, having only appended
    events.  Whenever the provider call raises, or its response is rejected
    (it does not decode, or the decoded value is not an object whose [summary]
    is a string of at least 20 characters once stripped), the record is
    exactly the fallback: [cluster] is "Cluster {id}", [summary] is
    "Cluster {id} contains {count} logs with varied content.", [problem] is
    "General cluster pattern", [solution] is
    "Review logs for further investigation." and [ai_summarized] is false,
    a function of the id and of the number of logs only. *)
Theorem summarize_cluster_never_raises `{RT : Runtime}
    (model : LangchainOllamaLLMModel) (cluster_id : Z) (logs : list pystr)
    (trace : list event) :
  let outcome := OllamaLLM_invoke (invoked trace) (prompt_of cluster_id logs) in
  ∃ record events,
    summarize_cluster model cluster_id logs trace = (inr record, trace ++ events)
    ∧ (provider_failed outcome ∨ response_rejected outcome →
       record = fallback_summary cluster_id (Z.of_nat (length logs))
       ∧ record =
           {| Summary.cluster := JString (lit "Cluster " ++ str_of_Z cluster_id);
              Summary.summary :=
                JString (lit "Cluster " ++ str_of_Z cluster_id ++ lit " contains "
                         ++ str_of_Z (Z.of_nat (length logs))
                         ++ lit " logs with varied content.");
              Summary.problem := JString (lit "General cluster pattern");
              Summary.solution :=
                JString (lit "Review logs for further investigation.");
              Summary.ai_summarized := false |}).
Proof.
  intros outcome. eexists _, _. split; [apply summarize_cluster_run|].
  fold outcome. intros Hbad. split; [|unfold fallback_summary]; f_equal;
    unfold summary_of_outcome.
  all: destruct Hbad as [[e ->]|(response & -> & Hrej)]; [done|].
  all: destruct (json_loads (strip response)) as [e|parsed]; [done|].
  all: destruct parsed; try done.
  all: by rewrite Hrej.
Qed.

Lemma summarize_cluster_never_raises_witness :
  ∃ events,
    summarize_cluster (RT := Reference.failing (lit "connection refused"))
      {| model_name := lit "llama3.2" |} 7 three_lines []
    = (inr (fallback_summary 7 3), events).
Proof.
  destruct (summarize_cluster_never_raises
              (RT := Reference.failing (lit "connection refused"))
              {| model_name := lit "llama3.2" |} 7 three_lines [])
    as (record & events & Hrun & Hfallback).
  exists events. rewrite Hrun.
  destruct Hfallback as [-> _]; [|reflexivity].
  left. eexists. reflexivity.
Defined.

(** C3: a response that does not decode as JSON, or that decodes to an
    object without [summary], or whose [summary] is a string of fewer than 20
    characters once stripped (the empty string included), is rejected:
    [summarize_cluster] returns the fallback record, with [ai_summarized]
    false.  In particular the response [{"summary": "ok"}], which the decoder
    accepts, is rejected. *)
Theorem summarize_cluster_rejects `{RT : Runtime}
    (model : LangchainOllamaLLMModel) (cluster_id : Z) (logs : list pystr)
    (trace : list event) (response : pystr) :
  let rejected :=
    ∃ record events,
      summarize_cluster model cluster_id logs trace = (inr record, trace ++ events)
      ∧ record = fallback_summary cluster_id (Z.of_nat (length logs))
      ∧ Summary.ai_summarized record = false in
  OllamaLLM_invoke (invoked trace) (prompt_of cluster_id logs) = inr response →
  ((∃ e, json_loads (strip response) = inl e) → rejected)
  ∧ (∀ members, json_loads (strip response) = inr (JObject members) →
       dict_get members (lit "summary") = None → rejected)
  ∧ (∀ members text, json_loads (strip response) = inr (JObject members) →
       dict_get members (lit "summary") = Some (JString text) →
       (length (strip text) < 20)%nat → rejected)
  ∧ (response = short_summary_response →
     json_loads (strip response) = Reference.loads (strip response) →
     rejected).
Proof.
  intros rejected Hcall.
  assert (summary_of_outcome cluster_id logs (inr response)
          = fallback_summary cluster_id (Z.of_nat (length logs)) → rejected)
    as Hfallback.
  { intros Heq. eexists _, _. split; [apply summarize_cluster_run|].
    by rewrite Hcall, Heq. }
  assert (∀ members text, json_loads (strip response) = inr (JObject members) →
            dict_get members (lit "summary") = Some (JString text) →
            (length (strip text) < 20)%nat → rejected) as Hshort.
  { intros members text Hdecode Hsummary Hlen. apply Hfallback.
    unfold summary_of_outcome, summary_passes.
    by rewrite Hdecode, Hsummary, bool_decide_false by lia. }
  repeat split.
  - intros [e He]. apply Hfallback. unfold summary_of_outcome. by rewrite He.
  - intros members Hdecode Hnone. apply Hfallback.
    unfold summary_of_outcome, summary_passes. by rewrite Hdecode, Hnone.
  - exact Hshort.
  - intros -> Hloads.
    apply (Hshort [(lit "summary", JString (lit "ok"))] (lit "ok")).
    + rewrite Hloads. vm_compute. reflexivity.
    + vm_compute. reflexivity.
    + vm_compute. lia.
Qed.

Lemma summarize_cluster_rejects_witness :
  ∃ events,
    summarize_cluster (RT := Reference.answering short_summary_response)
      {| model_name := lit "llama3.2" |} 7 three_lines []
    = (inr (fallback_summary 7 3), events).
Proof.
  destruct (summarize_cluster_rejects
              (RT := Reference.answering short_summary_response)
              {| model_name := lit "llama3.2" |} 7 three_lines []
              short_summary_response eq_refl) as (_ & _ & _ & Hok).
  destruct (Hok eq_refl eq_refl) as (record & events & Hrun & -> & _).
  exists ([] ++ events). exact Hrun.
Defined.

(** C4: a response that decodes to an object whose [summary] is a string of
    at least 20 characters once stripped is accepted: the record has
    [ai_summarized] true, its [summary] is the one of the response, and each
    of [cluster], [problem] and [solution] is the value of the response when
    the key is present and otherwise its own default, "Cluster {id}",
    "General cluster pattern" and "Review logs for further investigation.";
    absent keys do not cause a rejection. *)
Theorem summarize_cluster_accepts `{RT : Runtime}
    (model : LangchainOllamaLLMModel) (cluster_id : Z) (logs : list pystr)
    (trace : list event) (response : pystr) (members : list (pystr * json))
    (text : pystr) :
  OllamaLLM_invoke (invoked trace) (prompt_of cluster_id logs) = inr response →
  json_loads (strip response) = inr (JObject members) →
  dict_get members (lit "summary") = Some (JString text) →
  (20 ≤ length (strip text))%nat →
  ∃ events,
    summarize_cluster model cluster_id logs trace
    = (inr {| Summary.cluster :=
                match dict_get members (lit "cluster") with
                | Some v => v
                | None => JString (lit "Cluster " ++ str_of_Z cluster_id)
                end;
              Summary.summary := JString text;
              Summary.problem :=
                match dict_get members (lit "problem") with
                | Some v => v
                | None => JString (lit "General cluster pattern")
                end;
              Summary.solution :=
                match dict_get members (lit "solution") with
                | Some v => v
                | None => JString (lit "Review logs for further investigation.")
                end;
              Summary.ai_summarized := true |},
       trace ++ events).
Proof.
  intros Hcall Hdecode Hsummary Hlong. eexists.
  rewrite summarize_cluster_run, Hcall. f_equal. f_equal.
  unfold summary_of_outcome. rewrite Hdecode. unfold summary_passes.
  rewrite Hsummary, bool_decide_true by done.
  unfold ai_summary. rewrite Hsummary.
  by destruct (dict_get members (lit "cluster")),
       (dict_get members (lit "problem")), (dict_get members (lit "solution")).
Qed.

Lemma summarize_cluster_accepts_witness :
  ∃ events,
    summarize_cluster (RT := Reference.answering partial_response)
      {| model_name := lit "llama3.2" |} 0 three_lines []
    = (inr {| Summary.cluster := JString (lit "Database Errors");
              Summary.summary := JString (lit "Database timeouts recur.  ");
              Summary.problem := JString (lit "General cluster pattern");
              Summary.solution :=
                JString (lit "Review logs for further investigation.");
              Summary.ai_summarized := true |}, events).
Proof.
  destruct (summarize_cluster_accepts
              (RT := Reference.answering partial_response)
              {| model_name := lit "llama3.2" |} 0 three_lines []
              partial_response
              [(lit "summary", JString (lit "Database timeouts recur.  "));
               (lit "cluster", JString (lit "Database Errors"))]
              (lit "Database timeouts recur.  "))
    as (events & Hrun).
  - reflexivity.
  - vm_compute. reflexivity.
  - vm_compute. reflexivity.
  - vm_compute. lia.
  - exists ([] ++ events). exact Hrun.
Defined.

End SummarizeClusterClaims.

Section GateClaims.
Import AgentHelper Spec Samples.

Lemma lower_ascii_only (lower_other : pystr → nat → pystr) (s : pystr) :
  Forall (λ c, c < 128)%N s → lower lower_other s = lower_ascii <$> s.
Proof.
  unfold lower. generalize (lower_other s). intros other Hascii.
  revert other. induction Hascii as [|c rest Hc _ IH]; intros other; first done.
  cbn [imap mjoin list_join fmap list_fmap].
  apply N.ltb_lt in Hc. rewrite Hc. cbn [app]. f_equal. apply IH.
Qed.

(** C10: the gate reads [DISABLE_AI_ENHANCEMENT] from the environment, with
    "false" when it is unset, and reports the enhancement as disabled exactly
    when the value in lower case is "true".  An unset variable, "1", "yes"
    and "True " with a trailing space leave it enabled; for a value of ASCII
    characters it is disabled exactly for the spellings of "true" in upper
    and lower case letters. *)
Theorem is_ai_enhancement_enabled_gate `{RT : Runtime} (trace : list event) :
  let name := lit "DISABLE_AI_ENHANCEMENT" in
  let value := default (lit "false") (environ !! name) in
  ∃ enabled,
    is_ai_enhancement_enabled trace = (inr enabled, trace ++ [Getenv name])
    ∧ (enabled = false ↔ lower unicode_lower value = lit "true")
    ∧ (environ !! name = None → enabled = true)
    ∧ (Forall (λ c, c < 128)%N value →
       (enabled = false ↔ lower_ascii <$> value = lit "true"))
    ∧ (value ∈ [lit "1"; lit "yes"; lit "True "; lit "false"; lit ""] →
       enabled = true)
    ∧ (value ∈ [lit "true"; lit "True"; lit "TRUE"] → enabled = false).
Proof.
  intros name value. eexists. split; [apply gate_run|].
  fold gate_name name. fold value.
  assert (∀ P `{Decision P}, negb (bool_decide P) = false ↔ P) as Hoff.
  { intros P ?. rewrite negb_false_iff. apply bool_decide_eq_true. }
  assert (∀ P `{Decision P}, ¬ P → negb (bool_decide P) = true) as Hon.
  { intros P ? HP. by rewrite bool_decide_false. }
  assert (Forall (λ c, c < 128)%N value →
          lower unicode_lower value = lower_ascii <$> value) as Hascii
    by apply lower_ascii_only.
  assert (∀ v : pystr, Forall (λ c, c < 128)%N v → value = v →
            lower unicode_lower gate_value = lower_ascii <$> v) as Hcase.
  { intros v Hv <-. by apply Hascii. }
  split; [by apply Hoff|]. split; [|split; [|split]].
  - intros Hunset. apply Hon. rewrite (Hcase (lit "false")); [done|..].
    + by vm_compute; repeat constructor.
    + unfold value. by rewrite Hunset.
  - intros Hall. rewrite <- Hascii by done. by apply Hoff.
  - intros Hin. apply Hon. rewrite !elem_of_cons in Hin.
    destruct Hin as [Hv|[Hv|[Hv|[Hv|[Hv|Hnil]]]]];
      [..|by apply elem_of_nil in Hnil];
      (match type of Hv with
       | _ = ?v => rewrite (Hcase v); [|by vm_compute; repeat constructor|exact Hv]
       end); done.
  - intros Hin. apply Hoff. rewrite !elem_of_cons in Hin.
    destruct Hin as [Hv|[Hv|[Hv|Hnil]]];
      [..|by apply elem_of_nil in Hnil];
      (match type of Hv with
       | _ = ?v => rewrite (Hcase v); [|by vm_compute; repeat constructor|exact Hv]
       end); done.
Qed.

Lemma is_ai_enhancement_enabled_gate_witness :
  is_ai_enhancement_enabled (RT := Reference.switched_off (lit "TRUE")) []
  = (inr false, [Getenv (lit "DISABLE_AI_ENHANCEMENT")]).
Proof.
  destruct (is_ai_enhancement_enabled_gate
              (RT := Reference.switched_off (lit "TRUE")) [])
    as (enabled & Hrun & _ & _ & _ & _ & Hoff).
  rewrite Hrun. rewrite Hoff; [reflexivity|].
  cbn [environ Reference.switched_off Reference.runtime].
  rewrite lookup_singleton_eq. cbn [default]. set_solver.
Defined.

End GateClaims.

Section SummarizeClustersClaims.
Import AgentHelper Spec Samples.

(** C5: with the enhancement disabled, [summarize_clusters] on clusters in
    the interchange format reads the gate and does nothing else: the trace
    gains the one read of [DISABLE_AI_ENHANCEMENT], so the provider is neither
    constructed nor called.  The result has the sentinel as [alerts],
    [ai_enhancement_used] false, and for every cluster the fallback record
    for its id and its [log_count], with [ai_summarized] false.  In every run,
    enabled or not, the read of the gate is the first event and the only read
    of that variable: the gate is checked once, before any provider call. *)
Theorem summarize_clusters_disabled `{RT : Runtime} :
  (∀ cluster_data trace,
     disabled →
     Forall well_formed cluster_data →
     summarize_clusters cluster_data trace
     = (inr {| Result.alerts := JString (lit "No alerts identified");
               Result.clusters :=
                 (λ c, summarized c (fallback_summary (id_of c) (count_of c)))
                   <$> cluster_data;
               Result.ai_enhancement_used := false;
               Result.ollama_model_used := None;
               Result.ai_error := None |},
        trace ++ [Getenv (lit "DISABLE_AI_ENHANCEMENT")])
     ∧ Forall (λ c, Summarized.ai_summarized
                      (summarized c (fallback_summary (id_of c) (count_of c)))
                    = false) cluster_data)
  ∧ (∀ cluster_data trace,
       ∃ events,
         (summarize_clusters cluster_data trace).2
         = trace ++ Getenv (lit "DISABLE_AI_ENHANCEMENT") :: events
         ∧ Forall (λ e, e ≠ Getenv (lit "DISABLE_AI_ENHANCEMENT")) events).
Proof.
  split.
  - intros cluster_data trace Hoff Hwf. split; [by apply disabled_run|].
    by apply Forall_forall.
  - apply gate_read_first.
Qed.

Lemma summarize_clusters_disabled_witness :
  summarize_clusters (RT := Reference.switched_off (lit "True")) two_clusters []
  = (inr {| Result.alerts := JString (lit "No alerts identified");
            Result.clusters :=
              [summarized_fallback_sample (-1) 1 [lit "2024-01-02T00:00:00 INFO startup"];
               summarized_fallback_sample 0 2
                 [lit "2024-01-01T00:00:00 ERROR db timeout";
                  lit "2024-01-01T00:00:05 ERROR db timeout retry"]];
            Result.ai_enhancement_used := false;
            Result.ollama_model_used := None;
            Result.ai_error := None |},
     [Getenv (lit "DISABLE_AI_ENHANCEMENT")]).
Proof.
  destruct (summarize_clusters_disabled (RT := Reference.switched_off (lit "True")))
    as [Hoff _].
  destruct (Hoff two_clusters []) as [Hrun _].
  - unfold disabled, gate_value, gate_name.
    cbn [environ Reference.switched_off Reference.runtime].
    rewrite lookup_singleton_eq. vm_compute. reflexivity.
  - repeat constructor; eexists; reflexivity.
  - exact Hrun.
Defined.

Lemma has_alert_keys_iff alert :
  has_alert_keys alert = true
  ↔ ∃ members, alert = JObject members
      ∧ Forall (λ key, is_Some (dict_get members key)) required_keys.
Proof.
  unfold has_alert_keys, required_keys. destruct alert as [| | | | | |members];
    try (split; [done|by intros (? & ? & _)]).
  rewrite forallb_forall. split.
  - intros Hall. exists members. split; [done|]. apply Forall_forall.
    intros key Hkey%list_elem_of_In.
    by eapply bool_decide_eq_true_1, Hall.
  - intros (? & [= <-] & Hall) key Hkey%list_elem_of_In.
    apply bool_decide_eq_true_2. by eapply Forall_forall in Hall.
Qed.

Lemma alerts_accepted_iff parsed :
  alerts_accepted parsed = true ↔ follows_schema required_keys parsed.
Proof.
  unfold alerts_accepted, follows_schema.
  destruct parsed as [| | | | |items|];
    try (split; [done|by intros (? & ? & _)]).
  rewrite andb_true_iff, bool_decide_eq_true, forallb_forall. split.
  - intros [Hlen Hall]. exists items. split; [done|]. split.
    + by destruct items; [cbn in Hlen; lia|].
    + apply Forall_forall. intros alert Hin%list_elem_of_In.
      by apply has_alert_keys_iff, Hall.
  - intros (? & [= <-] & Hne & Hall). split.
    + destruct items; [done|cbn; lia].
    + intros alert Hin%list_elem_of_In. apply has_alert_keys_iff.
      by eapply Forall_forall in Hall.
Qed.

(** C1 as stated fails: the response
    [[{"log": ..., "explanation": ..., "suggestion": ...}]] decodes to a
    non-empty array whose element has the three keys the claim names, and yet
    [alerts] is the sentinel; and the sentinel begins with a capital letter. *)
Lemma alerts_singular_key_not_accepted :
  ∃ parsed result trace,
    Reference.loads (strip singular_key_response) = inr parsed
    ∧ follows_schema claimed_keys parsed
    ∧ summarize_clusters (RT := Reference.answering singular_key_response) [] []
      = (inr result, trace)
    ∧ Result.alerts result ≠ parsed
    ∧ Result.alerts result = JString (lit "No alerts identified")
    ∧ Result.alerts result ≠ JString (lit "no alerts identified").
Proof.
  eexists _, _, _. split; [vm_compute; reflexivity|].
  split; [|split; [vm_compute; reflexivity|]].
  - eexists. split; [reflexivity|]. split; [done|].
    apply Forall_singleton. eexists. split; [reflexivity|].
    unfold claimed_keys. repeat (apply Forall_cons; split; [by vm_compute; eexists|]).
    apply Forall_nil_2.
  - cbn [Result.alerts]. split; [discriminate|]. split; [reflexivity|].
    vm_compute. discriminate.
Qed.

(** C1, amended: for clusters in the interchange format, with the enhancement
    enabled and the provider constructed, [summarize_clusters] returns a
    result and does not raise, and its [alerts] is decided by the outcome of
    the insight call.  It is the decoded list exactly when the response
    decodes to a non-empty array whose every element is an object with the
    keys [log], [explanation] and [suggestions]; if the response decodes to
    anything else, does not decode, or the provider raises, it is the string
    "No alerts identified".  A list in [alerts] is therefore always the whole
    validated, non-empty decoded array. *)
Theorem summarize_clusters_alerts `{RT : Runtime}
    (cluster_data : list Input.t) (trace : list event) :
  ¬ disabled →
  OllamaLLM_init DEFAULT_MODEL = None →
  Forall well_formed cluster_data →
  let outcome := insight_outcome (invoked trace) cluster_data in
  let sentinel := JString (lit "No alerts identified") in
  ∃ result events,
    summarize_clusters cluster_data trace = (inr result, trace ++ events)
    ∧ (∀ response parsed,
         outcome = inr response → json_loads (strip response) = inr parsed →
         follows_schema required_keys parsed → Result.alerts result = parsed)
    ∧ (∀ response parsed,
         outcome = inr response → json_loads (strip response) = inr parsed →
         ¬ follows_schema required_keys parsed → Result.alerts result = sentinel)
    ∧ (∀ response e,
         outcome = inr response → json_loads (strip response) = inl e →
         Result.alerts result = sentinel)
    ∧ (∀ e, outcome = inl e → Result.alerts result = sentinel)
    ∧ (∀ items,
         Result.alerts result = JArray items →
         ∃ response, outcome = inr response
           ∧ json_loads (strip response) = inr (JArray items)
           ∧ follows_schema required_keys (JArray items)).
Proof.
  intros Hon Hinit Hwf outcome sentinel.
  destruct (enabled_run cluster_data trace Hon Hinit Hwf) as (events & Hrun & _).
  eexists _, _. split; [exact Hrun|]. cbn [Result.alerts]. fold outcome.
  unfold alerts_of_outcome. repeat split.
  - intros response parsed -> -> Hschema.
    apply alerts_accepted_iff in Hschema. by rewrite Hschema.
  - intros response parsed -> -> Hschema.
    destruct (alerts_accepted parsed) eqn:Hacc; [|done].
    by apply alerts_accepted_iff in Hacc.
  - by intros response e -> ->.
  - by intros e ->.
  - intros items Halerts. destruct outcome as [e|response]; [done|].
    exists response. split; [done|].
    destruct (json_loads (strip response)) as [e|parsed]; [done|].
    destruct (alerts_accepted parsed) eqn:Hacc; [|done].
    subst parsed. split; [done|]. by apply alerts_accepted_iff.
Qed.

Lemma summarize_clusters_alerts_witness :
  ∃ result events,
    summarize_clusters (RT := Reference.answering plural_key_response)
      two_clusters [] = (inr result, events)
    ∧ Result.alerts result
      = JArray [JObject [(lit "log", JString (lit "db timeout"));
                         (lit "explanation", JString (lit "the database is slow"));
                         (lit "suggestions", JString (lit "add an index"))]].
Proof.
  destruct (summarize_clusters_alerts
              (RT := Reference.answering plural_key_response) two_clusters [])
    as (result & events & Hrun & Hlist & _).
  - unfold disabled. vm_compute. discriminate.
  - reflexivity.
  - repeat constructor; eexists; reflexivity.
  - exists result, ([] ++ events). split; [exact Hrun|].
    apply (Hlist plural_key_response).
    + reflexivity.
    + vm_compute. reflexivity.
    + apply alerts_accepted_iff. vm_compute. reflexivity.
Defined.

Lemma records_of_lookup `{RT : Runtime} history cluster_data i :
  records_of history cluster_data !! i
  = (λ c, summarized c (summary_of_outcome (id_of c) (logs_of c)
                          (outcome_at history cluster_data i c)))
      <$> cluster_data !! i.
Proof. unfold records_of. apply list_lookup_imap. Qed.

(** C6: for clusters in the interchange format, with the enhancement enabled
    and the provider constructed, [summarize_clusters] returns a result with
    [ai_enhancement_used] true and one record per cluster, in order.  The
    record at a position is made from that cluster and from the outcome of
    that cluster's own provider call: its summary when the response is
    accepted, its own fallback otherwise, and in particular its fallback when
    the call raises; the loop goes on to the remaining clusters either way.
    When the insight call raises, [alerts] is the sentinel and the records
    stand.  A second run, in which the provider behaves in any other way
    on the other calls (those of other clusters and the insight call), has
    the same record at every position where the outcome of the cluster's own
    call is the same. *)
Theorem summarize_clusters_isolation `{RT : Runtime}
    (cluster_data : list Input.t) (trace : list event) :
  ¬ disabled →
  OllamaLLM_init DEFAULT_MODEL = None →
  Forall well_formed cluster_data →
  ∃ result events,
    summarize_clusters cluster_data trace = (inr result, trace ++ events)
    ∧ Result.ai_enhancement_used result = true
    ∧ length (Result.clusters result) = length cluster_data
    ∧ (∀ i c, cluster_data !! i = Some c →
         let outcome := outcome_at (invoked trace) cluster_data i c in
         Result.clusters result !! i
         = Some (summarized c (summary_of_outcome (id_of c) (logs_of c) outcome))
         ∧ (provider_failed outcome →
            Result.clusters result !! i
            = Some (summarized c (fallback_summary (id_of c)
                                    (Z.of_nat (length (logs_of c)))))))
    ∧ (provider_failed (insight_outcome (invoked trace) cluster_data) →
       Result.alerts result = JString (lit "No alerts identified"))
    ∧ (∀ RT' : Runtime,
         @json_loads RT' = @json_loads RT →
         ¬ @disabled RT' →
         @OllamaLLM_init RT' DEFAULT_MODEL = None →
         ∃ result' events',
           @summarize_clusters RT' cluster_data trace = (inr result', trace ++ events')
           ∧ ∀ i c, cluster_data !! i = Some c →
               @outcome_at RT' (invoked trace) cluster_data i c
               = @outcome_at RT (invoked trace) cluster_data i c →
               Result.clusters result' !! i = Result.clusters result !! i).
Proof.
  intros Hon Hinit Hwf.
  destruct (enabled_run cluster_data trace Hon Hinit Hwf) as (events & Hrun & _).
  eexists _, _. split; [exact Hrun|].
  cbn [Result.ai_enhancement_used Result.clusters Result.alerts].
  split; [done|]. split; [unfold records_of; by rewrite length_imap|].
  split; [|split].
  - intros i c Hc. cbv zeta.
    set (outcome := outcome_at (invoked trace) cluster_data i c).
    assert (records_of (invoked trace) cluster_data !! i
            = Some (summarized c (summary_of_outcome (id_of c) (logs_of c) outcome)))
      as Hrecord by by rewrite records_of_lookup, Hc.
    split; [done|]. intros [e He]. rewrite Hrecord. by rewrite He.
  - by intros [e ->].
  - intros RT' Hloads Hon' Hinit'.
    destruct (enabled_run (RT := RT') cluster_data trace Hon' Hinit' Hwf)
      as (events' & Hrun' & _).
    eexists _, _. split; [exact Hrun'|]. cbn [Result.clusters].
    intros i c Hc Hsame. rewrite !records_of_lookup, Hc. cbn [fmap option_fmap option_map].
    rewrite Hsame. unfold summary_of_outcome. by rewrite Hloads.
Qed.

Lemma summarize_clusters_isolation_witness :
  ∃ result events,
    summarize_clusters (RT := Reference.failing (lit "timed out")) two_clusters []
    = (inr result, events)
    ∧ Result.ai_enhancement_used result = true
    ∧ Result.alerts result = JString (lit "No alerts identified")
    ∧ Result.clusters result !! 1%nat
      = Some (summarized_fallback_sample 0 2
                [lit "2024-01-01T00:00:00 ERROR db timeout";
                 lit "2024-01-01T00:00:05 ERROR db timeout retry"]).
Proof.
  destruct (summarize_clusters_isolation
              (RT := Reference.failing (lit "timed out")) two_clusters [])
    as (result & events & Hrun & Hused & _ & Hrecords & Halerts & _).
  - unfold disabled. vm_compute. discriminate.
  - reflexivity.
  - repeat constructor; eexists; reflexivity.
  - exists result, ([] ++ events). split; [exact Hrun|]. split; [exact Hused|].
    split; [apply Halerts; by eexists|].
    pose proof (Hrecords 1%nat _ eq_refl) as [_ Hfallback].
    rewrite Hfallback; [reflexivity|by eexists].
Defined.

End SummarizeClustersClaims.

(** * Properties of the remaining code *)

Section StripFacts.
Import Pipeline More.
Implicit Types (s t : pystr) (c : N).

Lemma lstrip_head s c : head (lstrip s) = Some c → isspace c = false.
Proof.
  induction s as [|d s IH]; cbn [lstrip]; [done|].
  destruct (isspace d) eqn:Hd; [done|]. cbn. by intros [= <-].
Qed.

Lemma lstrip_fixed s : (∀ c, head s = Some c → isspace c = false) → lstrip s = s.
Proof. destruct s as [|d s]; [done|]. intros H. cbn. by rewrite (H d). Qed.

Lemma lstrip_app_keep s c t :
  isspace c = false → lstrip (s ++ c :: t) = lstrip s ++ c :: t.
Proof.
  intros Hc. induction s as [|d s IH]; cbn [lstrip app]; [by rewrite Hc|].
  by destruct (isspace d).
Qed.

Lemma rstrip_cons_keep c t : isspace c = false → rstrip (c :: t) = c :: rstrip t.
Proof.
  intros Hc. unfold rstrip. rewrite reverse_cons, lstrip_app_keep by done.
  by rewrite reverse_app.
Qed.

Lemma rstrip_last s c : last (rstrip s) = Some c → isspace c = false.
Proof. unfold rstrip. rewrite last_reverse. apply lstrip_head. Qed.

Lemma strip_head s c : head (strip s) = Some c → isspace c = false.
Proof.
  unfold strip. pose proof (lstrip_head s) as Hhead.
  destruct (lstrip s) as [|d t]; [done|].
  rewrite rstrip_cons_keep by by apply Hhead. cbn. intros [= <-]. by apply Hhead.
Qed.

Lemma strip_last s c : last (strip s) = Some c → isspace c = false.
Proof. apply rstrip_last. Qed.

Lemma strip_idempotent s : strip (strip s) = strip s.
Proof.
  unfold strip at 1. rewrite (lstrip_fixed (strip s)) by apply strip_head.
  unfold strip, rstrip. rewrite reverse_involutive.
  f_equal. apply lstrip_fixed, lstrip_head.
Qed.
End StripFacts.

Section LoadFacts.
Import Pipeline.

Lemma load_with_lines read encodings :
  Forall (λ line, line ≠ [] ∧ strip line = line) (load_with read encodings).
Proof.
  induction encodings as [|encoding rest IH]; cbn [load_with]; [constructor|].
  destruct (read encoding) as [file| |]; [|done|constructor].
  apply Forall_fmap, Forall_forall. intros line [Hline _]%list_elem_of_filter.
  cbn. split; [done|apply strip_idempotent].
Qed.
End LoadFacts.

Section ExportFacts.
Import Clustering AgentHelper Spec Pipeline More.
Context {A : Type}.
Implicit Types (m : gmap Z (list A)).

Lemma by_key_trans : Transitive (@by_key (list A)).
Proof. intros p q r. unfold by_key. lia. Qed.

Lemma by_key_total : Total (@by_key (list A)).
Proof. intros p q. unfold by_key. lia. Qed.

Lemma sorted_items_perm m : sorted_items m ≡ₚ map_to_list m.
Proof. apply merge_sort_Permutation. Qed.

Lemma sorted_items_NoDup m : NoDup (sorted_items m).*1.
Proof. rewrite sorted_items_perm. apply NoDup_fst_map_to_list. Qed.

Lemma strict_of_sorted (l : list (Z * list A)) :
  StronglySorted by_key l → NoDup l.*1 → StronglySorted Z.lt l.*1.
Proof.
  induction 1 as [|p l Hsorted IH Hall]; cbn; [constructor|].
  intros [Hnotin Hnodup]%NoDup_cons. constructor; [by apply IH|].
  apply Forall_fmap, Forall_forall. intros q Hq. cbn.
  assert (by_key p q) as Hle by by eapply Forall_forall in Hall.
  unfold by_key in Hle. assert (p.1 ≠ q.1); [|lia].
  intros Heq. apply Hnotin. rewrite Heq. by apply list_elem_of_fmap_2.
Qed.

Lemma sorted_items_strict m : StronglySorted Z.lt (sorted_items m).*1.
Proof.
  apply strict_of_sorted; [|apply sorted_items_NoDup].
  apply StronglySorted_merge_sort; [apply by_key_trans|apply by_key_total].
Qed.

Lemma elem_of_sorted_items m l members :
  (l, members) ∈ sorted_items m ↔ m !! l = Some members.
Proof. rewrite sorted_items_perm. apply elem_of_map_to_list. Qed.

Lemma sorted_items_roundtrip m : list_to_map (sorted_items m) = m.
Proof. symmetry. apply list_to_map_flip. by rewrite sorted_items_perm. Qed.

Lemma total_count_sorted_items m :
  total_count m = sum_list (length <$> (sorted_items m).*2).
Proof.
  unfold total_count. rewrite map_fold_foldr.
  rewrite sorted_items_perm.
  induction (map_to_list m) as [|[l members] rest IH]; cbn; [done|].
  by rewrite IH.
Qed.
End ExportFacts.

Section ExportClaims.
Import Clustering AgentHelper Spec Pipeline Samples More.

Lemma export_data_pairs (clustered_logs : gmap Z (list pystr)) :
  (λ c, (id_of c, logs_of c)) <$> export_data clustered_logs
  = sorted_items clustered_logs.
Proof.
  unfold export_data. rewrite <- list_fmap_compose.
  rewrite <- (list_fmap_id (sorted_items clustered_logs)) at 2.
  apply list_fmap_ext. by intros _ [l members] _.
Qed.

Lemma export_data_ids (clustered_logs : gmap Z (list pystr)) :
  id_of <$> export_data clustered_logs = (sorted_items clustered_logs).*1.
Proof.
  rewrite <- export_data_pairs, <- list_fmap_compose. done.
Qed.

Lemma export_data_logs (clustered_logs : gmap Z (list pystr)) :
  logs_of <$> export_data clustered_logs = (sorted_items clustered_logs).*2.
Proof.
  rewrite <- export_data_pairs, <- list_fmap_compose. done.
Qed.

Lemma export_data_strict (clustered_logs : gmap Z (list pystr)) :
  StronglySorted Z.lt (id_of <$> export_data clustered_logs).
Proof. rewrite export_data_ids. apply sorted_items_strict. Qed.

Lemma export_data_keys (clustered_logs : gmap Z (list pystr)) l :
  l ∈ id_of <$> export_data clustered_logs ↔ is_Some (clustered_logs !! l).
Proof.
  rewrite export_data_ids, list_elem_of_fmap. split.
  - intros ([l' members] & -> & Hin). apply elem_of_sorted_items in Hin. by eexists.
  - intros [members Hl]. exists (l, members). split; [done|].
    by apply elem_of_sorted_items.
Qed.

Lemma export_data_well_formed (clustered_logs : gmap Z (list pystr)) :
  Forall well_formed (export_data clustered_logs).
Proof.
  unfold export_data. apply Forall_fmap, Forall_forall.
  intros [l members] _. repeat split; by eexists.
Qed.

Lemma cluster_data_export_data (clustered_logs : gmap Z (list pystr)) :
  cluster_data clustered_logs = export_data clustered_logs.
Proof. done. Qed.

Lemma export_data_total (clustered_logs : gmap Z (list pystr)) :
  sum_list ((λ c, length (logs_of c)) <$> export_data clustered_logs)
  = total_count clustered_logs.
Proof.
  rewrite total_count_sorted_items, <- export_data_logs, <- list_fmap_compose.
  done.
Qed.

(** X1: whatever the file system does, every line that
    [load_logs_from_file] returns is non-empty and has no white space at
    either end, so stripping it again changes nothing; and when none of the
    three encodings yields the lines of the file the result is empty. *)
Theorem load_logs_from_file_lines (open_file : pystr → pystr → read_result)
    (log_path : pystr) :
  Forall (λ line, line ≠ [] ∧ strip line = line
                  ∧ (∀ c, head line = Some c → isspace c = false)
                  ∧ (∀ c, last line = Some c → isspace c = false))
         (load_logs_from_file open_file log_path)
  ∧ ((∀ encoding file, open_file log_path encoding ≠ ReadLines file) →
     load_logs_from_file open_file log_path = []).
Proof.
  split.
  - eapply Forall_impl; [apply load_with_lines|].
    intros line [Hne Hfix]. split; [done|]. split; [done|].
    rewrite <- Hfix. split; [apply strip_head|apply strip_last].
  - intros Hnone. unfold load_logs_from_file.
    generalize [lit "utf-8"; lit "latin-1"; lit "iso-8859-1"].
    intros encodings. induction encodings as [|encoding rest IH]; [done|].
    cbn [load_with]. destruct (open_file log_path encoding) eqn:Hread; try done.
    by apply Hnone in Hread.
Qed.

(** X2: the exported list is in strictly ascending order of [cluster_id],
    has one entry for each key of the grouping and no other, every entry has
    the three keys of the interchange format, and its [log_count] is the
    length of its [logs]; [cluster_data] of ui_app.py is the same list. *)
Theorem export_data_sorted (clustered_logs : gmap Z (list pystr)) :
  let exported := export_data clustered_logs in
  StronglySorted Z.lt (id_of <$> exported)
  ∧ (∀ l, l ∈ id_of <$> exported ↔ is_Some (clustered_logs !! l))
  ∧ Forall well_formed exported
  ∧ Forall (λ c, Input.log_count c = Some (Z.of_nat (length (logs_of c)))) exported
  ∧ cluster_data clustered_logs = exported.
Proof.
  intros exported. subst exported. split; [|split; [|split; [|split]]].
  - apply export_data_strict.
  - intros l. apply export_data_keys.
  - apply export_data_well_formed.
  - unfold export_data. apply Forall_fmap, Forall_forall. by intros [l members] _.
  - apply cluster_data_export_data.
Qed.

(** X3: exporting loses nothing and adds nothing: the pairs of id and logs
    of the exported entries, read back into a map, are the grouping, and the
    lengths of the exported [logs] add up to the member count of the
    grouping. *)
Theorem export_data_roundtrip (clustered_logs : gmap Z (list pystr)) :
  list_to_map ((λ c, (id_of c, logs_of c)) <$> export_data clustered_logs)
  = clustered_logs
  ∧ sum_list ((λ c, length (logs_of c)) <$> export_data clustered_logs)
    = total_count clustered_logs.
Proof.
  split.
  - rewrite export_data_pairs. apply sorted_items_roundtrip.
  - apply export_data_total.
Qed.
End ExportClaims.

Section PipelineClaims.
Import Clustering AgentHelper Spec Pipeline Samples More.

Lemma group_members_nonempty {A} (logs : list A) (labels : list Z) l members :
  group_logs_by_cluster logs labels !! l = Some members → members ≠ [].
Proof.
  unfold group_logs_by_cluster. rewrite foldl_append_to_lookup, lookup_empty.
  destruct (paired_with l (zip logs labels)); [done|]. by intros [= <-].
Qed.

Lemma Counter_step_fmap {A} (m : gmap Z (list A)) (x : A) (l : Z) :
  length <$> append_to m (x, l)
  = <[l := S (default 0%nat ((length <$> m) !! l))]> (length <$> m).
Proof.
  unfold append_to. cbn [fst snd]. rewrite fmap_insert, lookup_fmap. f_equal.
  rewrite length_app. destruct (m !! l); cbn; lia.
Qed.

Lemma Counter_foldl {A} (logs : list A) (labels : list Z) (m : gmap Z (list A)) :
  length logs = length labels →
  length <$> foldl append_to m (zip logs labels)
  = foldl (λ counts label, <[label := S (default 0%nat (counts !! label))]> counts)
          (length <$> m) labels.
Proof.
  revert labels m. induction logs as [|x logs IH]; intros [|l labels] m Hlen;
    simplify_eq/=; [done|].
  rewrite IH by done. by rewrite Counter_step_fmap.
Qed.

(** X4: for lines and labels of the same length, the cluster data that
    [run_analysis] hands to the summarization has exactly one entry for each
    label that occurs, in strictly ascending order of id; no entry has an
    empty list of logs; the lengths of the lists add up to the number of
    lines; and when the noise label occurs and no label is below it, the
    noise cluster is the first entry. *)
Theorem cluster_data_of_grouping (logs : list pystr) (labels : list Z) :
  length logs = length labels →
  let data := cluster_data (group_logs_by_cluster logs labels) in
  StronglySorted Z.lt (id_of <$> data)
  ∧ (∀ l, l ∈ id_of <$> data ↔ l ∈ labels)
  ∧ Forall (λ c, logs_of c ≠ []) data
  ∧ sum_list ((λ c, length (logs_of c)) <$> data) = length logs
  ∧ (-1 ∈ labels → Forall (λ l, -1 ≤ l) labels → id_of <$> head data = Some (-1)).
Proof.
  intros Hlen data. subst data.
  rewrite cluster_data_export_data.
  pose proof (export_data_strict (group_logs_by_cluster logs labels)) as Hsorted.
  assert (∀ l, l ∈ id_of <$> export_data (group_logs_by_cluster logs labels)
               ↔ l ∈ labels) as Hlabels.
  { intros l. rewrite export_data_keys. destruct (group_lookup logs labels l Hlen) as [Hin Hout].
    split.
    - intros Hsome. destruct (decide (l ∈ labels)) as [|Hnot]; [done|].
      rewrite (Hout Hnot) in Hsome. by destruct Hsome.
    - intros Hl. destruct (Hin Hl) as (members & -> & _). by eexists. }
  split; [done|]. split; [done|]. split; [|split].
  - apply Forall_forall. intros c Hc.
    assert ((id_of c, logs_of c) ∈ sorted_items (group_logs_by_cluster logs labels))
      as Hpair.
    { rewrite <- export_data_pairs. by apply (list_elem_of_fmap_2 (λ c, (id_of c, logs_of c))). }
    apply elem_of_sorted_items in Hpair. by eapply group_members_nonempty.
  - rewrite export_data_total, total_count_group. lia.
  - intros Hnoise Hlow. apply Hlabels in Hnoise.
    destruct (export_data (group_logs_by_cluster logs labels)) as [|c rest] eqn:Hdata;
      [by apply elem_of_nil in Hnoise|].
    cbn. f_equal. cbn in Hsorted, Hnoise.
    assert (-1 ≤ id_of c) as Hc.
    { eapply Forall_forall in Hlow; [exact Hlow|]. apply Hlabels. cbn. left. }
    apply elem_of_cons in Hnoise as [Heq|Hin]; [done|].
    apply StronglySorted_inv in Hsorted as [_ Hall].
    eapply Forall_forall in Hall; [|exact Hin]. lia.
Qed.

(** X5: for lines and labels of the same length, the [cluster_sizes] that
    [run_analysis] reports are the sizes of the clusters it summarizes: the
    counter of the labels maps each cluster id to the length of its member
    list; [n_noise] is the size of the noise cluster, or zero without one;
    and [n_clusters] is the number of summarized clusters other than the
    noise cluster. *)
Theorem cluster_sizes_of_grouping (logs : list pystr) (labels : list Z) :
  length logs = length labels →
  let clustered := group_logs_by_cluster logs labels in
  let cluster_sizes := Counter labels in
  cluster_sizes = length <$> clustered
  ∧ n_noise cluster_sizes = length (default [] (clustered !! (-1)))
  ∧ n_clusters cluster_sizes
    = length (filter (λ c, id_of c ≠ -1) (cluster_data clustered)).
Proof.
  intros Hlen clustered cluster_sizes.
  assert (cluster_sizes = length <$> clustered) as Hsizes.
  { subst cluster_sizes clustered. unfold Counter, group_logs_by_cluster.
    rewrite Counter_foldl by done. by rewrite fmap_empty. }
  split; [done|]. split.
  - unfold n_noise. rewrite Hsizes, lookup_fmap. by destruct (clustered !! (-1)).
  - unfold n_clusters. rewrite Hsizes.
    assert ((map_to_list (length <$> clustered)).*1 ≡ₚ (sorted_items clustered).*1)
      as Hperm.
    { rewrite map_to_list_fmap, sorted_items_perm, <- list_fmap_compose.
      assert (fst ∘ prod_map id length <$> map_to_list clustered
              = (map_to_list clustered).*1) as ->; [|done].
      apply list_fmap_ext. by intros _ [l members] _. }
    rewrite Hperm.
    rewrite cluster_data_export_data, <- export_data_ids.
    induction (export_data clustered) as [|c rest IH]; [done|].
    cbn [fmap list_fmap]. rewrite !filter_cons.
    destruct (decide (id_of c ≠ -1)); cbn [length]; by rewrite IH.
Qed.
End PipelineClaims.

Section AgentExtras.
Import Clustering AgentHelper Spec Pipeline Samples More.
Context `{RT : Runtime}.

Lemma comprehension_cluster_logs_text_lenient cluster_data :
  Forall has_id_and_logs cluster_data →
  comprehension cluster_logs_text cluster_data = inr (part_of <$> cluster_data).
Proof.
  induction 1 as [|c rest (Hid & Hlogs) _ IH]; first done.
  cbn [comprehension fmap list_fmap]. rewrite IH.
  destruct c as [[cid|] count [logs|] title];
    try (by destruct Hid as [? [=]]); try (by destruct Hlogs as [? [=]]).
Qed.

Lemma comprehension_basic_summary_missing pre c post key :
  Forall well_formed pre → first_missing c = Some key →
  comprehension basic_summary (pre ++ c :: post) = inl (KeyError key).
Proof.
  intros Hpre Hkey. induction Hpre as [|c0 pre Hc0 _ IH].
  - cbn [app comprehension]. destruct c as [[cid|] [count|] [logs|] title];
      cbn in Hkey; simplify_eq; done.
  - cbn [app comprehension]. rewrite IH.
    destruct Hc0 as (Hid & Hcount & Hlogs).
    destruct c0 as [[cid|] [count|] [logs|] title];
      try (by destruct Hid as [? [=]]); try (by destruct Hcount as [? [=]]);
      try (by destruct Hlogs as [? [=]]).
Qed.

Lemma comprehension_basic_summary_plain cluster_data clusters :
  comprehension basic_summary cluster_data = inr clusters →
  Forall (λ r, Summarized.ai_summarized r = false) clusters
  ∧ Forall well_formed cluster_data.
Proof.
  revert clusters. induction cluster_data as [|c rest IH]; intros clusters.
  - intros [= <-]. by split.
  - cbn [comprehension].
    destruct (basic_summary c) as [e|r] eqn:Hc; [done|].
    destruct (comprehension basic_summary rest) as [e|rs]; [done|].
    intros [= <-]. destruct (IH rs eq_refl) as [Hrs Hwf]. split.
    + constructor; [|done].
      destruct c as [[cid|] [count|] [logs|] title]; cbn in Hc; simplify_eq; done.
    + constructor; [|done].
      destruct c as [[cid|] [count|] [logs|] title]; cbn in Hc; simplify_eq.
      repeat split; by eexists.
Qed.

Lemma body_run model c t :
  let outcome := OllamaLLM_invoke (invoked t) (prompt_of (id_of c) (logs_of c)) in
  (summary_data ← summarize_cluster model (default (-1) (Input.cluster_id c))
                                   (default [] (Input.logs c));
   mret {|
     Summarized.cluster_id := default (-1) (Input.cluster_id c);
     Summarized.log_count :=
       default (Z.of_nat (length (default [] (Input.logs c)))) (Input.log_count c);
     Summarized.cluster := Summary.cluster summary_data;
     Summarized.summary := Summary.summary summary_data;
     Summarized.problem := Summary.problem summary_data;
     Summarized.solution := Summary.solution summary_data;
     Summarized.original_logs := default [] (Input.logs c);
     Summarized.ai_summarized := Summary.ai_summarized summary_data
   |}) t
  = (inr (summarized c (summary_of_outcome (id_of c) (logs_of c) outcome)),
     t ++ summarize_events (id_of c) (logs_of c) outcome).
Proof.
  intros outcome. unfold mbind, M_bind. rewrite summarize_cluster_run. reflexivity.
Qed.

(** The events of a run that reaches the insight call: the gate, the
    construction, the calls of the loop and the insight call. *)
Lemma enhanced_run cluster_data trace :
  ¬ disabled →
  OllamaLLM_init DEFAULT_MODEL = None →
  Forall has_id_and_logs cluster_data →
  ∃ loop_events,
    summarize_clusters cluster_data trace
    = (inr {| Result.alerts :=
                alerts_of_outcome (insight_outcome (invoked trace) cluster_data);
              Result.clusters := records_of (invoked trace) cluster_data;
              Result.ai_enhancement_used := true;
              Result.ollama_model_used := Some DEFAULT_MODEL;
              Result.ai_error := None |},
       trace ++ Getenv gate_name :: Construct DEFAULT_MODEL
             :: loop_events ++ [Invoke (insight_prompt cluster_data)])
    ∧ Forall loop_event loop_events
    ∧ invoked loop_events = prompts_of cluster_data.
Proof.
  intros Hon Hinit Hwf. unfold summarize_clusters. unfold mbind at 1, M_bind.
  rewrite gate_run. rewrite bool_decide_false by done. cbn [negb].
  unfold try_except at 1. unfold mbind at 1, M_bind.
  unfold LangchainOllamaLLMModel_init. rewrite Hinit.
  unfold mbind at 1, M_bind.
  edestruct (for_each_run) as (events & -> & Hevents & Hinvoked).
  { intros c t. cbv zeta. apply body_run. }
  unfold mbind at 1, M_bind, lift.
  rewrite comprehension_cluster_logs_text_lenient by done.
  unfold mbind at 1, M_bind, try_except, LangchainOllamaLLMModel_call.
  unfold mbind, M_bind, mret, M_ret.
  fold (insight_prompt cluster_data).
  rewrite !invoked_app, Hinvoked. cbn [invoked omap app]. rewrite !app_nil_r.
  unfold prompts_of.
  fold (insight_outcome (invoked trace) cluster_data).
  exists events. split; [|done].
  unfold alerts_of_outcome.
  destruct (insight_outcome _ _) as [e|response].
  + rewrite <- !app_assoc. done.
  + destruct (json_loads _) as [e|parsed].
    * rewrite <- !app_assoc. done.
    * destruct (alerts_accepted parsed); rewrite <- !app_assoc; done.
Qed.

Lemma construction_failure_run cluster_data trace e :
  ¬ disabled →
  OllamaLLM_init DEFAULT_MODEL = Some e →
  summarize_clusters cluster_data trace
  = (match comprehension basic_summary cluster_data with
     | inr clusters =>
         inr {| Result.alerts := no_alerts;
                Result.clusters := clusters;
                Result.ai_enhancement_used := false;
                Result.ollama_model_used := None;
                Result.ai_error := Some (str_exn e) |}
     | inl e' => inl e'
     end,
     trace ++ [Getenv gate_name; Construct DEFAULT_MODEL]).
Proof.
  intros Hon Hinit. unfold summarize_clusters. unfold mbind at 1, M_bind.
  rewrite gate_run. rewrite bool_decide_false by done. cbn [negb].
  unfold try_except at 1. unfold mbind at 1, M_bind.
  unfold LangchainOllamaLLMModel_init. rewrite Hinit.
  unfold mbind, M_bind, lift, mret, M_ret. rewrite <- app_assoc.
  by destruct (comprehension basic_summary cluster_data).
Qed.


Lemma comprehension_basic_summary_fails cluster_data :
  ¬ Forall well_formed cluster_data →
  ∃ key, comprehension basic_summary cluster_data = inl (KeyError key)
         ∧ key ∈ [lit "cluster_id"; lit "log_count"; lit "logs"].
Proof.
  induction cluster_data as [|c rest IH]; intros Hnot.
  - destruct Hnot. constructor.
  - cbn [comprehension].
    destruct c as [[cid|] [count|] [logs|] title]; cbn;
      try (eexists; split; [reflexivity|set_solver]).
    destruct IH as (key & -> & Hkey).
    + intros Hrest. apply Hnot. constructor; [|done]. repeat split; by eexists.
    + by exists key.
Qed.

Lemma comprehension_cluster_logs_text_fails pre c post :
  ¬ has_id_and_logs c →
  ∃ key, comprehension cluster_logs_text (pre ++ c :: post) = inl (KeyError key).
Proof.
  intros Hc. induction pre as [|c0 pre IH]; cbn [app comprehension].
  - destruct c as [[cid|] count [logs|] title]; cbn; try by eexists.
    destruct Hc. split; by eexists.
  - destruct c0 as [[cid|] count [logs|] title]; cbn; try by eexists.
    destruct IH as [key ->]. by eexists.
Qed.


(** X7: an element that lacks one of [cluster_id], [log_count] and [logs]
    makes the basic summaries raise [KeyError] for the first key that the
    first such element lacks.  A disabled run raises it after the read of the
    gate, and a run whose provider cannot be constructed raises it from the
    handler of the construction failure. *)
Theorem summarize_clusters_missing_key
    (pre post : list Input.t) (c : Input.t) (key : pystr) (trace : list event) :
  Forall well_formed pre →
  first_missing c = Some key →
  (disabled →
   summarize_clusters (pre ++ c :: post) trace
   = (inl (KeyError key), trace ++ [Getenv (lit "DISABLE_AI_ENHANCEMENT")]))
  ∧ (∀ e, ¬ disabled → OllamaLLM_init DEFAULT_MODEL = Some e →
     summarize_clusters (pre ++ c :: post) trace
     = (inl (KeyError key),
        trace ++ [Getenv (lit "DISABLE_AI_ENHANCEMENT"); Construct (lit "llama3.2")])).
Proof.
  intros Hpre Hkey. split.
  - intros Hoff. unfold summarize_clusters. unfold mbind at 1, M_bind.
    rewrite gate_run. rewrite bool_decide_true by done. cbn [negb].
    unfold mbind, M_bind, lift.
    by rewrite (comprehension_basic_summary_missing pre c post key).
  - intros e Hon Hinit. rewrite (construction_failure_run _ _ e) by done.
    by rewrite (comprehension_basic_summary_missing pre c post key).
Qed.

(** X8: an enhanced run does not need [log_count]: when every element has
    [cluster_id] and [logs] and the provider is constructed, the run returns,
    and the [log_count] of each record is the one of its element when
    present and the number of its logs otherwise. *)
Theorem summarize_clusters_log_count_default
    (cluster_data : list Input.t) (trace : list event) :
  ¬ disabled →
  OllamaLLM_init DEFAULT_MODEL = None →
  Forall has_id_and_logs cluster_data →
  ∃ result events,
    summarize_clusters cluster_data trace = (inr result, trace ++ events)
    ∧ Result.ai_enhancement_used result = true
    ∧ length (Result.clusters result) = length cluster_data
    ∧ ∀ i c, cluster_data !! i = Some c →
        ∃ r, Result.clusters result !! i = Some r
          ∧ Summarized.log_count r
            = match Input.log_count c with
              | Some n => n
              | None => Z.of_nat (length (logs_of c))
              end
          ∧ Some (Summarized.cluster_id r) = Input.cluster_id c
          ∧ Some (Summarized.original_logs r) = Input.logs c.
Proof.
  intros Hon Hinit Hwf.
  destruct (enhanced_run cluster_data trace Hon Hinit Hwf) as (events & Hrun & _).
  eexists _, _. split; [exact Hrun|]. cbn [Result.ai_enhancement_used Result.clusters].
  split; [done|]. split; [unfold records_of; by rewrite length_imap|].
  intros i c Hc. eexists. split; [by rewrite records_of_lookup, Hc|].
  eapply Forall_lookup_1 in Hwf as [[cid Hid] [logs Hlogs]]; [|exact Hc].
  unfold summarized, count_of, id_of, logs_of. cbn. rewrite Hid, Hlogs.
  by destruct (Input.log_count c).
Qed.

(** A run that reaches the insight prompt with an element that lacks
    [cluster_id] or [logs]: the loop is over, and both the prompt and the
    handler raise. *)
Lemma incomplete_element_run
    (pre post : list Input.t) (c : Input.t) (trace : list event) :
  ¬ disabled →
  OllamaLLM_init DEFAULT_MODEL = None →
  ¬ has_id_and_logs c →
  ∃ key loop_events,
    summarize_clusters (pre ++ c :: post) trace
    = (inl (KeyError key),
       trace ++ Getenv gate_name :: Construct DEFAULT_MODEL :: loop_events)
    ∧ comprehension basic_summary (pre ++ c :: post) = inl (KeyError key)
    ∧ Forall loop_event loop_events
    ∧ invoked loop_events = prompts_of (pre ++ c :: post).
Proof.
  intros Hon Hinit Hc. unfold summarize_clusters. unfold mbind at 1, M_bind.
  rewrite gate_run. rewrite bool_decide_false by done. cbn [negb].
  unfold try_except at 1. unfold mbind at 1, M_bind.
  unfold LangchainOllamaLLMModel_init. rewrite Hinit.
  unfold mbind at 1, M_bind.
  edestruct (for_each_run) as (events & -> & Hevents & Hinvoked).
  { intros c' t. cbv zeta. apply body_run. }
  unfold mbind at 1, M_bind, lift.
  destruct (comprehension_cluster_logs_text_fails pre c post Hc) as [key0 ->].
  destruct (comprehension_basic_summary_fails (pre ++ c :: post)) as (key & Hfail & Hkey).
  { intros Hall. apply Forall_app in Hall as [_ Hall].
    apply Forall_cons in Hall as [(Hid & _ & Hlogs) _]. by apply Hc. }
  unfold mbind, M_bind. rewrite Hfail.
  exists key, events. split; [by rewrite <- !app_assoc|]. done.
Qed.

(** X9: an element without [cluster_id] or without [logs] makes an enhanced
    run raise [KeyError], and only after the loop: the provider has been
    invoked once for every cluster, the insight call is not made, and no
    result is returned. *)
Theorem summarize_clusters_missing_key_enhanced
    (pre post : list Input.t) (c : Input.t) (trace : list event) :
  ¬ disabled →
  OllamaLLM_init DEFAULT_MODEL = None →
  ¬ has_id_and_logs c →
  ∃ key events,
    summarize_clusters (pre ++ c :: post) trace
    = (inl (KeyError key),
       trace ++ Getenv (lit "DISABLE_AI_ENHANCEMENT") :: Construct (lit "llama3.2")
             :: events)
    ∧ key ∈ [lit "cluster_id"; lit "log_count"; lit "logs"]
    ∧ invoked events = prompts_of (pre ++ c :: post).
Proof.
  intros Hon Hinit Hc.
  destruct (incomplete_element_run pre post c trace Hon Hinit Hc)
    as (key & events & Hrun & Hbasic & _ & Hinvoked).
  exists key, events. split; [exact Hrun|]. split; [|exact Hinvoked].
  destruct (comprehension_basic_summary_fails (pre ++ c :: post))
    as (key' & Hfail & Hkey).
  - intros Hall. apply Forall_app in Hall as [_ Hall].
    apply Forall_cons in Hall as [(Hid & _ & Hlogs) _]. by apply Hc.
  - rewrite Hbasic in Hfail. by injection Hfail as ->.
Qed.

(** X10: in an enhanced run the provider is constructed once, right after
    the read of the gate, then invoked once for each cluster, in the order of
    the clusters and with the prompt of that cluster, and then once with the
    insight prompt; there is no other call and no retry. *)
Theorem summarize_clusters_call_sequence
    (cluster_data : list Input.t) (trace : list event) :
  ¬ disabled →
  OllamaLLM_init DEFAULT_MODEL = None →
  Forall has_id_and_logs cluster_data →
  ∃ loop_events,
    (summarize_clusters cluster_data trace).2
    = trace ++ Getenv (lit "DISABLE_AI_ENHANCEMENT") :: Construct (lit "llama3.2")
            :: loop_events ++ [Invoke (insight_prompt cluster_data)]
    ∧ Forall (λ e, e = Getenv (lit "DEBUG") ∨ ∃ p, e = Invoke p) loop_events
    ∧ invoked loop_events
      = (λ c, prompt_of (id_of c) (logs_of c)) <$> cluster_data
    ∧ length (invoked (summarize_clusters cluster_data trace).2)
      = (length (invoked trace) + length cluster_data + 1)%nat.
Proof.
  intros Hon Hinit Hwf.
  destruct (enhanced_run cluster_data trace Hon Hinit Hwf)
    as (events & Hrun & Hloop & Hinvoked).
  exists events. rewrite Hrun. cbn [snd]. split; [done|]. split; [done|].
  split; [done|].
  assert (∀ a b l, invoked (Getenv a :: Construct b :: l) = invoked l) as Hskip
    by done.
  assert (∀ p, invoked [Invoke p] = [p]) as Hone by done.
  rewrite invoked_app, Hskip, invoked_app, Hinvoked, Hone. unfold prompts_of.
  rewrite !length_app, length_fmap. cbn [length]. lia.
Qed.


Lemma summary_of_outcome_invariant cluster_id logs outcome :
  let r := summary_of_outcome cluster_id logs outcome in
  if Summary.ai_summarized r
  then ∃ text, Summary.summary r = JString text ∧ (20 ≤ length (strip text))%nat
  else r = fallback_summary cluster_id (Z.of_nat (length logs)).
Proof.
  unfold summary_of_outcome. destruct outcome as [e|response]; [done|].
  destruct (json_loads (strip response)) as [e|parsed]; [done|].
  destruct parsed as [| | | | | |members]; try done.
  unfold summary_passes.
  destruct (dict_get members (lit "summary")) as [[| | | |text| |]|] eqn:Hsummary;
    try done.
  destruct (decide (20 ≤ length (strip text))%nat) as [Hlong|Hshort].
  - rewrite bool_decide_true by done. unfold ai_summary.
    cbn [Summary.ai_summarized Summary.summary]. rewrite Hsummary. by exists text.
  - by rewrite bool_decide_false by done.
Qed.

(** X11: [summarize_cluster] invokes the provider exactly once, with the
    prompt of the cluster, and the record it returns is of one of two kinds:
    with [ai_summarized] true its [summary] is a string of at least 20
    characters once stripped, and with [ai_summarized] false it is the
    fallback record. *)
Theorem summarize_cluster_record_invariant
    (model : LangchainOllamaLLMModel) (cluster_id : Z) (logs : list pystr)
    (trace : list event) :
  ∃ record events,
    summarize_cluster model cluster_id logs trace = (inr record, trace ++ events)
    ∧ invoked events = [prompt_of cluster_id logs]
    ∧ if Summary.ai_summarized record
      then ∃ text, Summary.summary record = JString text
                   ∧ (20 ≤ length (strip text))%nat
      else record = fallback_summary cluster_id (Z.of_nat (length logs)).
Proof.
  eexists _, _. split; [apply summarize_cluster_run|].
  split; [apply summarize_events_loop|apply summary_of_outcome_invariant].
Qed.

Lemma has_id_and_logs_dec c : Decision (has_id_and_logs c).
Proof. unfold has_id_and_logs. apply _. Defined.

Lemma cluster_logs_text_succeeds cluster_data parts :
  comprehension cluster_logs_text cluster_data = inr parts →
  Forall has_id_and_logs cluster_data.
Proof.
  intros Hparts.
  destruct (Forall_Exists_dec has_id_and_logs (λ c, ¬ has_id_and_logs c)
              (λ c, has_id_and_logs_dec c) cluster_data) as [Hall|Hex]; [done|].
  apply Exists_exists in Hex as (c & Hin & Hc).
  apply list_elem_of_split in Hin as (pre & post & ->).
  destruct (comprehension_cluster_logs_text_fails pre c post Hc) as [key Hfail].
  congruence.
Qed.

(** X12: every result that [summarize_clusters] returns, for any input and
    runtime, has one record per cluster and is of one of two kinds.  With
    [ai_enhancement_used] false, [alerts] is the sentinel, no record has
    [ai_summarized] true and no model is named.  With [ai_enhancement_used]
    true, there is no [ai_error], the model named is "llama3.2", and
    [alerts] is the sentinel or a non-empty array of objects that each have
    the keys [log], [explanation] and [suggestions]. *)
Theorem summarize_clusters_result_invariant
    (cluster_data : list Input.t) (trace trace' : list event) (result : Result.t) :
  summarize_clusters cluster_data trace = (inr result, trace') →
  length (Result.clusters result) = length cluster_data
  ∧ (if Result.ai_enhancement_used result
     then Result.ai_error result = None
          ∧ Result.ollama_model_used result = Some (lit "llama3.2")
          ∧ (Result.alerts result = JString (lit "No alerts identified")
             ∨ follows_schema required_keys (Result.alerts result))
     else Result.alerts result = JString (lit "No alerts identified")
          ∧ Result.ollama_model_used result = None
          ∧ Forall (λ r, Summarized.ai_summarized r = false)
                   (Result.clusters result)).
Proof.
  assert (∀ clusters,
            comprehension basic_summary cluster_data = inr clusters →
            length clusters = length cluster_data
            ∧ Forall (λ r, Summarized.ai_summarized r = false) clusters) as Hbasic.
  { intros clusters Hc.
    destruct (comprehension_basic_summary_plain _ _ Hc) as [Hplain Hwf].
    rewrite comprehension_basic_summary in Hc by done. injection Hc as <-.
    by rewrite length_fmap. }
  destruct (decide disabled) as [Hoff|Hon].
  - unfold summarize_clusters. unfold mbind at 1, M_bind.
    rewrite gate_run. rewrite bool_decide_true by done. cbn [negb].
    unfold mbind, M_bind, lift, mret, M_ret.
    destruct (comprehension basic_summary cluster_data) as [e|clusters] eqn:Hc;
      [done|].
    intros [= <- _]. cbn. destruct (Hbasic clusters eq_refl). done.
  - destruct (OllamaLLM_init DEFAULT_MODEL) as [e|] eqn:Hinit.
    + rewrite (construction_failure_run _ _ e) by done.
      destruct (comprehension basic_summary cluster_data) as [e'|clusters] eqn:Hc;
        [done|].
      intros [= <- _]. cbn. destruct (Hbasic clusters eq_refl). done.
    + destruct (Forall_Exists_dec has_id_and_logs (λ c, ¬ has_id_and_logs c)
                  (λ c, has_id_and_logs_dec c) cluster_data) as [Hall|Hex].
      * destruct (enhanced_run cluster_data trace Hon Hinit Hall) as (events & -> & _).
        intros [= <- _]. cbn. split; [unfold records_of; by rewrite length_imap|].
        split; [done|]. split; [done|].
        unfold alerts_of_outcome.
        destruct (insight_outcome _ _) as [e|response]; [by left|].
        destruct (json_loads _) as [e|parsed]; [by left|].
        destruct (alerts_accepted parsed) eqn:Hacc; [|by left].
        right. by apply alerts_accepted_iff.
      * apply Exists_exists in Hex as (c & Hin & Hc).
        apply list_elem_of_split in Hin as (pre & post & ->).
        destruct (incomplete_element_run pre post c trace Hon Hinit Hc)
          as (key & events & -> & _). done.
Qed.

(** X13: when every provider call of an enhanced run raises, and each
    element's [log_count] is the number of its logs, the cluster records and
    the alerts are those of a disabled run: the result differs from it only
    in [ai_enhancement_used] and in the model it names. *)
Theorem summarize_clusters_provider_down
    (cluster_data : list Input.t) (trace : list event) :
  ¬ disabled →
  OllamaLLM_init DEFAULT_MODEL = None →
  Forall well_formed cluster_data →
  Forall (λ c, count_of c = Z.of_nat (length (logs_of c))) cluster_data →
  (∀ history prompt, ∃ e, OllamaLLM_invoke history prompt = inl e) →
  ∃ events,
    summarize_clusters cluster_data trace
    = (inr {| Result.alerts := JString (lit "No alerts identified");
              Result.clusters :=
                (λ c, summarized c (fallback_summary (id_of c) (count_of c)))
                  <$> cluster_data;
              Result.ai_enhancement_used := true;
              Result.ollama_model_used := Some (lit "llama3.2");
              Result.ai_error := None |},
       trace ++ events).
Proof.
  intros Hon Hinit Hwf Hcount Hdown.
  destruct (enabled_run cluster_data trace Hon Hinit Hwf) as (events & -> & _).
  eexists. f_equal. f_equal. f_equal.
  - unfold alerts_of_outcome, insight_outcome.
    by destruct (Hdown (invoked trace ++
        ((λ c, prompt_of (id_of c) (logs_of c)) <$> cluster_data))
        (insight_prompt cluster_data)) as [e ->].
  - apply list_eq. intros i. rewrite records_of_lookup, list_lookup_fmap.
    destruct (cluster_data !! i) as [c|] eqn:Hc; [|done]. cbn. f_equal.
    eapply Forall_lookup_1 in Hcount; [|exact Hc]. rewrite Hcount.
    unfold outcome_at, summary_of_outcome.
    by destruct (Hdown (invoked trace ++
        ((λ c, prompt_of (id_of c) (logs_of c)) <$> take i cluster_data))
        (prompt_of (id_of c) (logs_of c))) as [e ->].
Qed.

End AgentExtras.

Section FindFacts.
Import Files More.
Variable path_join : pystr → pystr → pystr.
Implicit Types (files log_files : list pystr) (root : pystr).

Lemma scan_directory_shape max_files root files log_files :
  ∃ new,
    scan_directory path_join max_files root files log_files = log_files ++ new
    ∧ new `prefix_of` log_paths path_join root files
    ∧ ((length new ≤ 1)%nat ∨ Z.of_nat (length log_files + length new) ≤ max_files)
    ∧ (Z.of_nat (length log_files + length new) < max_files →
       new = log_paths path_join root files).
Proof.
  revert log_files. induction files as [|file rest IH]; intros log_files.
  - exists []. cbn. rewrite app_nil_r. repeat split; [done|left; lia].
  - cbn [scan_directory]. unfold log_paths. rewrite filter_cons.
    destruct (endswith file (lit ".log")) eqn:Hlog.
    + rewrite decide_True by done. cbn [fmap list_fmap].
      case_bool_decide as Hcap.
      * exists [path_join root file]. split; [done|]. split.
        { by apply prefix_cons, prefix_nil. }
        split; [left; cbn; lia|]. rewrite length_app in Hcap. cbn in *. lia.
      * destruct (IH (log_files ++ [path_join root file]))
          as (new & -> & Hprefix & Hbound & Hall).
        exists (path_join root file :: new). rewrite <- app_assoc. split; [done|].
        split; [by apply prefix_cons|].
        rewrite length_app in *. cbn [length] in *. split.
        { right. destruct Hbound as [Hone|Hmax]; lia. }
        intros Hlt. f_equal. apply Hall. lia.
    + rewrite decide_False by done.
      case_bool_decide as Hcap.
      * exists []. rewrite app_nil_r. split; [done|]. split; [apply prefix_nil|].
        split; [left; cbn; lia|]. cbn. lia.
      * apply IH.
Qed.

Lemma all_log_paths_cons root dirs files walk :
  all_log_paths path_join ((root, dirs, files) :: walk)
  = log_paths path_join root files ++ all_log_paths path_join walk.
Proof. done. Qed.

Lemma find_log_files_shape walk max_files log_files :
  ∃ new,
    foldl (λ log_files '(root, _, files),
             scan_directory path_join max_files root files log_files)
          log_files walk = log_files ++ new
    ∧ new `sublist_of` all_log_paths path_join walk
    ∧ Z.of_nat (length (log_files ++ new))
      ≤ Z.max (Z.of_nat (length log_files)) (Z.max max_files 1 - 1)
        + Z.of_nat (length walk)
    ∧ (Z.of_nat (length log_files + length (all_log_paths path_join walk)) < max_files →
       new = all_log_paths path_join walk).
Proof.
  revert log_files. induction walk as [|[[root dirs] files] walk IH]; intros log_files.
  - exists []. cbn. rewrite app_nil_r. repeat split; [done|lia].
  - cbn [foldl].
    destruct (scan_directory_shape max_files root files log_files)
      as (new & -> & Hprefix & Hbound & Hall).
    destruct (IH (log_files ++ new)) as (new' & -> & Hsub & Hlen & Hall').
    exists (new ++ new'). rewrite <- app_assoc. split; [done|].
    rewrite all_log_paths_cons. split; [|split].
    + apply sublist_app; [|done]. destruct Hprefix as [k ->].
      by apply sublist_inserts_r.
    + rewrite app_assoc. rewrite !length_app in *. cbn [length]. lia.
    + rewrite !length_app. intros Hlt.
      assert (new = log_paths path_join root files) as ->.
      { apply Hall. apply prefix_length in Hprefix. lia. }
      f_equal. apply Hall'. rewrite length_app. lia.
Qed.
End FindFacts.

Section ContainsFacts.
Import Files.

Lemma contains_spec (needle hay : pystr) :
  contains needle hay = true ↔ ∃ before after, hay = before ++ needle ++ after.
Proof.
  induction hay as [|c hay IH]; cbn [contains].
  - rewrite orb_false_r, bool_decide_eq_true. split.
    + intros [after ->]. by exists [], after.
    + intros (before & after & Heq). symmetry in Heq.
      apply app_eq_nil in Heq as [-> Heq]. apply app_eq_nil in Heq as [-> ->].
      by exists [].
  - rewrite orb_true_iff, bool_decide_eq_true, IH. split.
    + intros [[after ->]|(before & after & ->)].
      * by exists [], after.
      * by exists (c :: before), after.
    + intros ([|d before] & after & Heq).
      * left. by exists after.
      * right. injection Heq as -> ->. by exists before, after.
Qed.

End ContainsFacts.

Section SearchFacts.
Import Files More.
Variable unicode_lower : pystr → nat → pystr.
Variable open_file : pystr → file_read.
Implicit Types (matches : list Match.t).

Lemma reports_tail search_term file_path i line lines m :
  reports unicode_lower search_term file_path (S i) lines m →
  reports unicode_lower search_term file_path i (line :: lines) m.
Proof.
  intros (j & l & Hj & Hfile & Hnum & Hrest). exists (S j), l.
  split; [done|]. split; [done|]. split; [|done]. rewrite Hnum. lia.
Qed.

Lemma search_lines_shape search_term max_matches file_path i lines matches :
  ∃ new broke,
    search_lines unicode_lower search_term max_matches file_path i lines matches
    = (matches ++ new, broke)
    ∧ Forall (reports unicode_lower search_term file_path i lines) new
    ∧ (broke = true →
       max_matches ≤ Z.of_nat (length (matches ++ new))
       ∧ Z.of_nat (length (matches ++ new))
         ≤ Z.max max_matches (Z.of_nat (length matches) + 1))
    ∧ (broke = false →
       new = [] ∨ Z.of_nat (length (matches ++ new)) < max_matches).
Proof.
  revert i matches. induction lines as [|line rest IH]; intros i matches.
  - exists [], false. rewrite app_nil_r.
    split; [done|]. split; [constructor|]. split; [done|by left].
  - cbn [search_lines].
    destruct (contains _ _) eqn:Hin.
    + set (m := {| Match.file := file_path; Match.line_number := Z.of_nat i + 1;
                   Match.content := strip line |}).
      assert (reports unicode_lower search_term file_path i (line :: rest) m) as Hm.
      { exists 0%nat, line. repeat split; [cbn; lia|]. by apply contains_spec. }
      case_bool_decide as Hcap.
      * exists [m], true. split; [done|]. split; [by constructor|].
        rewrite length_app in *. cbn [length] in *. split; [lia|done].
      * destruct (IH (S i) (matches ++ [m])) as (new & broke & -> & Hnew & Hb & Hnb).
        exists (m :: new), broke. rewrite <- app_assoc. split; [done|]. split.
        { constructor; [done|]. eapply Forall_impl; [exact Hnew|].
          intros m'. apply reports_tail. }
        rewrite <- app_assoc in Hb, Hnb. cbn [app] in Hb, Hnb.
        rewrite !length_app in *. cbn [length] in *. split.
        { intros Hbroke. specialize (Hb Hbroke). lia. }
        intros Hbroke. right. destruct (Hnb Hbroke) as [->|Hlt]; cbn [length] in *; lia.
    + destruct (IH (S i) matches) as (new & broke & -> & Hnew & Hb & Hnb).
      exists new, broke. split; [done|]. split; [|done].
      eapply Forall_impl; [exact Hnew|]. intros m'. apply reports_tail.
Qed.

Lemma search_loop_shape search_term max_matches files matches :
  Z.of_nat (length matches) < max_matches ∨ matches = [] →
  ∃ new,
    search_loop unicode_lower open_file search_term max_matches files matches
    = matches ++ new
    ∧ Forall (λ m, Match.file m ∈ files
                   ∧ reports unicode_lower search_term (Match.file m) 0
                       (lines_read (open_file (Match.file m))) m) new
    ∧ Z.of_nat (length (matches ++ new)) ≤ Z.max max_matches 1.
Proof.
  revert matches. induction files as [|file_path rest IH]; intros matches Hinv.
  - exists []. rewrite app_nil_r. split; [done|]. split; [done|].
    destruct Hinv as [?| ->]; cbn; lia.
  - cbn [search_loop].
    destruct (search_lines_shape search_term max_matches file_path 0
                (lines_read (open_file file_path)) matches)
      as (new & broke & -> & Hnew & Hb & Hnb).
    assert (Forall (λ m, Match.file m ∈ file_path :: rest
                         ∧ reports unicode_lower search_term (Match.file m) 0
                             (lines_read (open_file (Match.file m))) m) new) as Hnew'.
    { eapply Forall_impl; [exact Hnew|]. intros m Hm.
      assert (Match.file m = file_path) as -> by by destruct Hm as (? & ? & ? & ? & _).
      split; [left|done]. }
    assert (∀ more,
      Forall (λ m, Match.file m ∈ rest
                   ∧ reports unicode_lower search_term (Match.file m) 0
                       (lines_read (open_file (Match.file m))) m) more →
      Forall (λ m, Match.file m ∈ file_path :: rest
                   ∧ reports unicode_lower search_term (Match.file m) 0
                       (lines_read (open_file (Match.file m))) m) (new ++ more))
      as Hjoin.
    { intros more Hmore. apply Forall_app. split; [done|].
      eapply Forall_impl; [exact Hmore|]. intros m [Hm ?]. split; [by right|done]. }
    destruct broke.
    + destruct (Hb eq_refl) as [Hreached Hbound]. rewrite bool_decide_true by done.
      exists new. split; [done|]. split; [done|].
      destruct Hinv as [?| ->]; cbn [length] in *; lia.
    + assert (Z.of_nat (length (matches ++ new)) < max_matches ∨ matches ++ new = [])
        as Hinv'.
      { destruct (Hnb eq_refl) as [->|Hlt]; [rewrite app_nil_r|]; tauto. }
      assert (∃ more,
        search_loop unicode_lower open_file search_term max_matches rest
          (matches ++ new) = (matches ++ new) ++ more
        ∧ Forall (λ m, Match.file m ∈ rest
                       ∧ reports unicode_lower search_term (Match.file m) 0
                           (lines_read (open_file (Match.file m))) m) more
        ∧ Z.of_nat (length ((matches ++ new) ++ more)) ≤ Z.max max_matches 1)
        as (more & Hrest & Hmore & Hlen) by by apply IH.
      destruct (read_error (open_file file_path)) as [e|].
      * exists (new ++ more). rewrite Hrest, <- app_assoc. split; [done|].
        split; [by apply Hjoin|]. by rewrite app_assoc.
      * case_bool_decide as Hcap.
        -- exists new. split; [done|]. split; [done|].
           destruct Hinv' as [?|Hnil]; [lia|]. rewrite Hnil. cbn. lia.
        -- exists (new ++ more). rewrite Hrest, <- app_assoc. split; [done|].
           split; [by apply Hjoin|]. by rewrite app_assoc.
Qed.
End SearchFacts.

Section SolutionFacts.
Import Files Solutions More.
Variable unicode_lower : pystr → nat → pystr.

Lemma existsb_orb {A} (f g : A → bool) (l : list A) :
  existsb (λ x, f x || g x) l = existsb f l || existsb g l.
Proof.
  induction l as [|x l IH]; [done|]. cbn. rewrite IH.
  destruct (f x), (g x), (existsb f l), (existsb g l); done.
Qed.

Lemma mentions_any_app words1 words2 eps :
  mentions_any unicode_lower (words1 ++ words2) eps = mentions_any unicode_lower words1 eps || mentions_any unicode_lower words2 eps.
Proof.
  unfold mentions_any, any_pattern. rewrite <- existsb_orb.
  induction eps as [|item eps IH]; [done|]. cbn [existsb]. rewrite IH.
  f_equal. apply existsb_app.
Qed.

(** The record of what [suggest_solutions] returns, from its four tests. *)
Lemma suggest_solutions_unfold (analysis : Analysis.t) :
  let eps := default [] (Analysis.error_patterns analysis) in
  suggest_solutions unicode_lower analysis
  = match (if mentions_any unicode_lower connection_words eps then [connection_solution] else [])
          ++ (if mentions_any unicode_lower permission_words eps then [permission_solution] else [])
          ++ (if mentions_any unicode_lower resource_words eps then [resource_solution] else [])
          ++ (if mentions_any unicode_lower database_words eps then [database_solution] else [])
    with
    | [] =>
        if bool_decide (0 < default 0 (Analysis.total_entries analysis)) then
          [general_solution
             match default [] (Analysis.components analysis) with
             | first :: others => (max_by_count first others).1
             | [] => lit "unknown"
             end]
        else []
    | specific => specific
    end.
Proof.
  intros eps. unfold suggest_solutions. fold eps.
  assert (∀ test words,
            (∀ p, test p = existsb (λ word, mentions unicode_lower word p) words) →
            any_pattern unicode_lower test eps = mentions_any unicode_lower words eps) as Hany.
  { intros test words Htest. unfold mentions_any, any_pattern.
    induction eps as [|item rest IH]; [done|]. cbn [existsb]. by rewrite IH, Htest. }
  assert (∀ p words a,
            existsb (λ word, mentions unicode_lower word p) (a :: words)
            = mentions unicode_lower a p
              || existsb (λ word, mentions unicode_lower word p) words) as Hcons
    by done.
  rewrite (Hany (λ pattern, mentions unicode_lower "connection" pattern
                            || mentions unicode_lower "timeout" pattern
                            || mentions unicode_lower "connect" pattern)
                connection_words)
    by (intros p; unfold connection_words; rewrite !Hcons; cbn [existsb];
        by rewrite ?orb_false_r, ?orb_assoc).
  rewrite (Hany (λ pattern, mentions unicode_lower "permission" pattern
                            || mentions unicode_lower "access" pattern
                            || mentions unicode_lower "denied" pattern)
                permission_words)
    by (intros p; unfold permission_words; rewrite !Hcons; cbn [existsb];
        by rewrite ?orb_false_r, ?orb_assoc).
  rewrite (Hany (λ pattern, mentions unicode_lower "memory" pattern
                            || mentions unicode_lower "cpu" pattern
                            || mentions unicode_lower "capacity" pattern
                            || mentions unicode_lower "full" pattern)
                resource_words)
    by (intros p; unfold resource_words; rewrite !Hcons; cbn [existsb];
        by rewrite ?orb_false_r, ?orb_assoc).
  rewrite (Hany (λ pattern, mentions unicode_lower "database" pattern
                            || mentions unicode_lower "db" pattern
                            || mentions unicode_lower "sql" pattern
                            || mentions unicode_lower "query" pattern)
                database_words)
    by (intros p; unfold database_words; rewrite !Hcons; cbn [existsb];
        by rewrite ?orb_false_r, ?orb_assoc).
  destruct (mentions_any unicode_lower connection_words eps), (mentions_any unicode_lower permission_words eps),
    (mentions_any unicode_lower resource_words eps), (mentions_any unicode_lower database_words eps); reflexivity.
Qed.

Lemma max_by_count_spec best items :
  let r := max_by_count best items in
  (r = best ∧ Forall (λ x, x.2 ≤ best.2) items)
  ∨ (∃ pre post, items = pre ++ r :: post ∧ best.2 < r.2
       ∧ Forall (λ x, x.2 < r.2) pre ∧ Forall (λ x, x.2 ≤ r.2) post).
Proof.
  revert best. induction items as [|x rest IH]; intros best; cbn [max_by_count].
  - left. by split.
  - case_bool_decide as Hlt.
    + specialize (IH x). cbv zeta in *.
      remember (max_by_count x rest) as r eqn:Hr. clear Hr.
      destruct IH as [[-> Hall]|(pre & post & Hrest & Hbest & Hpre & Hpost)].
      * right. exists [], rest.
        split; [done|]. split; [done|]. split; [constructor|done].
      * right. exists (x :: pre), post. split; [by rewrite Hrest|]. split; [lia|].
        split; [|done]. constructor; [lia|done].
    + specialize (IH best). cbv zeta in *.
      remember (max_by_count best rest) as r eqn:Hr. clear Hr.
      destruct IH as [[-> Hall]|(pre & post & Hrest & Hbest & Hpre & Hpost)].
      * left. split; [done|]. constructor; [lia|done].
      * right. exists (x :: pre), post. split; [by rewrite Hrest|]. split; [done|].
        split; [|done]. constructor; [lia|done].
Qed.

(** X18: [suggest_solutions] returns at most four solutions.  When some
    pattern mentions a keyword, the result is the non-empty selection, in
    the fixed order connection, permission, resource, database, of the
    solutions whose keywords are mentioned, and the general solution is
    absent.  When no pattern mentions a keyword, the result is the single
    general solution if [total_entries] is positive and empty otherwise. *)
Theorem suggest_solutions_shape (analysis : Analysis.t) :
  let eps := default [] (Analysis.error_patterns analysis) in
  let total := default 0 (Analysis.total_entries analysis) in
  let result := suggest_solutions unicode_lower analysis in
  let keywords :=
    connection_words ++ permission_words ++ resource_words ++ database_words in
  (length result ≤ 4)%nat
  ∧ (mentions_any unicode_lower keywords eps = true →
     result ≠ [] ∧ result `sublist_of` specific_solutions
     ∧ (connection_solution ∈ result ↔ mentions_any unicode_lower connection_words eps = true)
     ∧ (permission_solution ∈ result ↔ mentions_any unicode_lower permission_words eps = true)
     ∧ (resource_solution ∈ result ↔ mentions_any unicode_lower resource_words eps = true)
     ∧ (database_solution ∈ result ↔ mentions_any unicode_lower database_words eps = true))
  ∧ (mentions_any unicode_lower keywords eps = false → 0 < total →
     ∃ component, result = [general_solution component])
  ∧ (mentions_any unicode_lower keywords eps = false → total ≤ 0 → result = []).
Proof.
  intros eps total result keywords. subst result keywords.
  rewrite suggest_solutions_unfold. fold eps total.
  rewrite !mentions_any_app.
  assert (connection_solution ≠ permission_solution) by discriminate.
  assert (connection_solution ≠ resource_solution) by discriminate.
  assert (connection_solution ≠ database_solution) by discriminate.
  assert (permission_solution ≠ resource_solution) by discriminate.
  assert (permission_solution ≠ database_solution) by discriminate.
  assert (resource_solution ≠ database_solution) by discriminate.
  unfold specific_solutions.
  destruct (mentions_any unicode_lower connection_words eps), (mentions_any unicode_lower permission_words eps),
    (mentions_any unicode_lower resource_words eps), (mentions_any unicode_lower database_words eps); cbn [app orb].
  16: { split; [destruct (bool_decide (0 < total)); cbn; lia|]. split; [done|].
        split.
        - intros _ Hpos. rewrite bool_decide_true by done. by eexists.
        - intros _ Hneg. by rewrite bool_decide_false by lia. }
  all: split; [cbn; lia|]; split; [|done].
  all: intros _; split; [done|]; split;
    [repeat first [apply sublist_nil | apply sublist_skip | apply sublist_cons]|].
  all: rewrite ?elem_of_cons, ?elem_of_nil; intuition congruence.
Qed.

(** X19: the general solution names the most common component: the first
    component, in the order of the dict, whose count no other component
    exceeds; without components it names "unknown". *)
Theorem suggest_solutions_general_component (analysis : Analysis.t) :
  let eps := default [] (Analysis.error_patterns analysis) in
  let keywords :=
    connection_words ++ permission_words ++ resource_words ++ database_words in
  mentions_any unicode_lower keywords eps = false →
  0 < default 0 (Analysis.total_entries analysis) →
  match default [] (Analysis.components analysis) with
  | [] => suggest_solutions unicode_lower analysis = [general_solution (lit "unknown")]
  | components =>
      ∃ before name count after,
        components = before ++ (name, count) :: after
        ∧ Forall (λ x, x.2 < count) before
        ∧ Forall (λ x, x.2 ≤ count) after
        ∧ suggest_solutions unicode_lower analysis = [general_solution name]
  end.
Proof.
  intros eps keywords Hnone Hpos. subst keywords.
  rewrite !mentions_any_app in Hnone.
  apply orb_false_elim in Hnone as [Hc Hnone].
  apply orb_false_elim in Hnone as [Hp Hnone].
  apply orb_false_elim in Hnone as [Hr Hd].
  rewrite suggest_solutions_unfold. fold eps. rewrite Hc, Hp, Hr, Hd. cbn [app].
  rewrite bool_decide_true by done.
  destruct (default [] (Analysis.components analysis)) as [|first others]; [done|].
  destruct (max_by_count first others) as [name count] eqn:Hmax.
  pose proof (max_by_count_spec first others) as Hspec. cbv zeta in Hspec.
  rewrite Hmax in Hspec. cbn [fst snd] in *.
  destruct Hspec as [[<- Hall]|(pre & post & -> & Hbest & Hpre & Hpost)].
  - exists [], name, count, others. by repeat split.
  - exists (first :: pre), name, count, post. split; [done|].
    split; [constructor; [done|done]|]. by split.
Qed.
End SolutionFacts.

Section FileClaims.
Import Files More.




(** X15: [find_log_files] returns paths of log files only, in the order of
    the walk and without repeating a file: the result is a subsequence of
    the joined paths of the files whose name ends in [.log]; and when there
    are fewer such files than [max_files], it is all of them. *)
Theorem find_log_files_paths (path_join : pystr → pystr → pystr)
    (walk : list (pystr * list pystr * list pystr)) (max_files : Z) :
  let result := find_log_files path_join walk max_files in
  result `sublist_of` all_log_paths path_join walk
  ∧ Forall (λ path, ∃ root dirs files file,
              (root, dirs, files) ∈ walk ∧ file ∈ files
              ∧ endswith file (lit ".log") = true
              ∧ path = path_join root file) result
  ∧ (Z.of_nat (length (all_log_paths path_join walk)) < max_files →
     result = all_log_paths path_join walk).
Proof.
  intros result. subst result. unfold find_log_files.
  destruct (find_log_files_shape path_join walk max_files [])
    as (new & -> & Hsub & _ & Hall). cbn [app length] in *.
  split; [done|]. split; [|by apply Hall].
  apply Forall_forall. intros path Hpath.
  eapply elem_of_sublist in Hpath; [|exact Hsub].
  unfold all_log_paths in Hpath.
  apply list_elem_of_bind in Hpath as ([[root dirs] files] & Hin & Hwalk).
  apply list_elem_of_fmap in Hin as (file & -> & Hfile).
  apply list_elem_of_filter in Hfile as [Hlog Hfile].
  by exists root, dirs, files, file.
Qed.

Lemma find_log_files_paths_witness :
  find_log_files (λ root file, root ++ lit "/" ++ file)
    [(lit "logs", [lit "old"], [lit "app.log"; lit "notes.txt"]);
     (lit "logs/old", [], [lit "db.log"])] 100
  = [lit "logs/app.log"; lit "logs/old/db.log"].
Proof.
  destruct (find_log_files_paths (λ root file, root ++ lit "/" ++ file)
    [(lit "logs", [lit "old"], [lit "app.log"; lit "notes.txt"]);
     (lit "logs/old", [], [lit "db.log"])] 100) as (_ & _ & Hall).
  rewrite Hall; [vm_compute; reflexivity|vm_compute; reflexivity].
Defined.

(** X16: [search_files_for_term] returns at most [max_matches] matches, or
    one match when [max_matches] is below one, whatever the files contain
    and whichever reads fail. *)
Theorem search_files_for_term_cap (unicode_lower : pystr → nat → pystr)
    (open_file : pystr → file_read) (files : list pystr) (search_term : pystr)
    (max_matches : Z) :
  Z.of_nat (length (search_files_for_term unicode_lower open_file files
                      search_term max_matches))
  ≤ Z.max max_matches 1.
Proof.
  unfold search_files_for_term.
  destruct (search_loop_shape unicode_lower open_file search_term max_matches
              files []) as (new & -> & _ & Hlen); [by right|done].
Qed.

(** X17: every match that [search_files_for_term] returns is genuine: its
    file is one of the files searched, its line number is one more than the
    index of a line that was read from that file, its content is that line
    stripped, and the line contains the search term when both are put in
    lower case. *)
Theorem search_files_for_term_sound (unicode_lower : pystr → nat → pystr)
    (open_file : pystr → file_read) (files : list pystr) (search_term : pystr)
    (max_matches : Z) :
  Forall (λ m,
    Match.file m ∈ files
    ∧ ∃ j line,
        lines_read (open_file (Match.file m)) !! j = Some line
        ∧ Match.line_number m = Z.of_nat j + 1
        ∧ Match.content m = strip line
        ∧ strip (Match.content m) = Match.content m
        ∧ ∃ before after,
            lower unicode_lower line
            = before ++ lower unicode_lower search_term ++ after)
    (search_files_for_term unicode_lower open_file files search_term max_matches).
Proof.
  unfold search_files_for_term.
  destruct (search_loop_shape unicode_lower open_file search_term max_matches
              files []) as (new & -> & Hnew & _); [by right|].
  cbn [app]. eapply Forall_impl; [exact Hnew|]. cbn beta.
  intros m [Hfile (j & line & Hline & _ & Hnum & Hcontent & Hin)].
  split; [done|]. exists j, line. split; [done|]. split; [exact Hnum|].
  split; [done|]. split; [|done]. rewrite Hcontent. apply strip_idempotent.
Qed.

End FileClaims.

Section RunAnalysisClaims.
Import Clustering AgentHelper Spec Pipeline More.
Context `{RT : Runtime}.

Lemma lower_true : lower unicode_lower (lit "true") = lit "true".
Proof. rewrite lower_ascii_only; [reflexivity|]. repeat constructor. Qed.

Lemma cluster_data_well_formed (clustered_logs : gmap Z (list pystr)) :
  Forall well_formed (cluster_data clustered_logs).
Proof.
  rewrite cluster_data_export_data. apply export_data_well_formed.
Qed.

(** X20: the check box of the user interface decides the gate, whatever the
    environment held before: [run_analysis] overwrites
    [DISABLE_AI_ENHANCEMENT] in both cases.  With [disable_ai] the
    summarization returns the basic records of the clusters and the provider
    is neither constructed nor invoked; without it the provider is
    constructed right after the read of the gate, even when the variable had
    been set to "true" outside. *)
Theorem run_analysis_overrides_gate (disable_ai : bool)
    (log_contents : list pystr) (labels : list Z) (trace : list event) :
  let data := cluster_data (group_logs_by_cluster log_contents labels) in
  let run := run_analysis_summarize disable_ai log_contents labels trace in
  if disable_ai
  then run = (inr {| Result.alerts := JString (lit "No alerts identified");
                     Result.clusters :=
                       (λ c, summarized c (fallback_summary (id_of c) (count_of c)))
                         <$> data;
                     Result.ai_enhancement_used := false;
                     Result.ollama_model_used := None;
                     Result.ai_error := None |},
              trace ++ [Getenv (lit "DISABLE_AI_ENHANCEMENT")])
  else ∃ events,
         run.2 = trace ++ Getenv (lit "DISABLE_AI_ENHANCEMENT")
                       :: Construct (lit "llama3.2") :: events.
Proof.
  intros data run. subst run. unfold run_analysis_summarize. cbv zeta. fold data.
  pose proof (cluster_data_well_formed (group_logs_by_cluster log_contents labels))
    as Hwf. fold data in Hwf.
  destruct disable_ai.
  - apply (disabled_run (RT := setenv gate_name (lit "true"))); [|exact Hwf].
    unfold disabled, gate_value. cbn [environ setenv unicode_lower].
    rewrite lookup_insert_eq. cbn [default]. apply lower_true.
  - set (RT' := setenv gate_name (lit "false")).
    assert (Hon : ¬ disabled (RT := RT')).
    { unfold disabled, gate_value, RT'. cbn [environ setenv unicode_lower].
      rewrite lookup_insert_eq. cbn [default].
      rewrite lower_ascii_only by repeat constructor. vm_compute. discriminate. }
    change (∃ events, (summarize_clusters (RT := RT') data trace).2
                      = trace ++ Getenv gate_name :: Construct DEFAULT_MODEL :: events).
    destruct (OllamaLLM_init (Runtime := RT') DEFAULT_MODEL) as [e|] eqn:Hinit.
    + exists []. rewrite (construction_failure_run (RT := RT') data trace e Hon Hinit).
      reflexivity.
    + destruct (enabled_run (RT := RT') data trace Hon Hinit Hwf)
        as (events & Hrun & _).
      exists events. by rewrite Hrun.
Qed.

End RunAnalysisClaims.

Section Instances.
Import Clustering AgentHelper Spec Pipeline Files Solutions Samples More.

Lemma load_logs_from_file_lines_witness :
  load_logs_from_file undecodable (lit "app.log") = [].
Proof.
  apply (load_logs_from_file_lines undecodable (lit "app.log")).
  intros encoding file. discriminate.
Defined.

Lemma cluster_data_of_grouping_witness :
  id_of <$> head (cluster_data (group_logs_by_cluster three_lines [0; 0; -1]))
  = Some (-1).
Proof.
  apply (cluster_data_of_grouping three_lines [0; 0; -1]).
  - reflexivity.
  - set_solver.
  - repeat constructor; lia.
Defined.

Lemma cluster_sizes_of_grouping_witness :
  n_noise (Counter [0; 0; -1])
  = length (default [] (group_logs_by_cluster three_lines [0; 0; -1] !! (-1))).
Proof.
  apply (cluster_sizes_of_grouping three_lines [0; 0; -1]). reflexivity.
Defined.


Lemma summarize_clusters_missing_key_witness :
  summarize_clusters (RT := Reference.switched_off (lit "true"))
    (two_clusters ++ [without_log_count]) []
  = (inl (KeyError (lit "log_count")), [Getenv (lit "DISABLE_AI_ENHANCEMENT")]).
Proof.
  apply (summarize_clusters_missing_key
           (RT := Reference.switched_off (lit "true"))
           two_clusters [] without_log_count (lit "log_count") []).
  - repeat constructor; eexists; reflexivity.
  - reflexivity.
  - unfold disabled, gate_value, gate_name.
    cbn [environ Reference.switched_off Reference.runtime].
    rewrite lookup_singleton_eq. vm_compute. reflexivity.
Defined.

Lemma summarize_clusters_log_count_default_witness :
  ∃ result events r,
    summarize_clusters (RT := Reference.failing (lit "timed out"))
      [without_log_count] [] = (inr result, events)
    ∧ Result.clusters result !! 0%nat = Some r
    ∧ Summarized.log_count r = 2.
Proof.
  destruct (summarize_clusters_log_count_default
              (RT := Reference.failing (lit "timed out")) [without_log_count] [])
    as (result & events & Hrun & _ & _ & Hrecords).
  - unfold disabled. vm_compute. discriminate.
  - reflexivity.
  - repeat constructor; eexists; reflexivity.
  - destruct (Hrecords 0%nat without_log_count eq_refl) as (r & Hr & Hcount & _).
    exists result, ([] ++ events), r. split; [exact Hrun|]. split; [exact Hr|].
    exact Hcount.
Defined.

Lemma summarize_clusters_missing_key_enhanced_witness :
  ∃ key events,
    summarize_clusters (RT := Reference.failing (lit "timed out"))
      (two_clusters ++ [without_logs]) [] = (inl (KeyError key), events)
    ∧ length (invoked events) = 3%nat.
Proof.
  destruct (summarize_clusters_missing_key_enhanced
              (RT := Reference.failing (lit "timed out"))
              two_clusters [] without_logs [])
    as (key & events & Hrun & _ & Hinvoked).
  - unfold disabled. vm_compute. discriminate.
  - reflexivity.
  - intros [_ [logs Hlogs]]. discriminate.
  - eexists key, _. split; [exact Hrun|].
    change (length (invoked events) = 3%nat). rewrite Hinvoked.
    unfold prompts_of. by rewrite length_fmap.
Defined.

Lemma summarize_clusters_call_sequence_witness :
  length (invoked (summarize_clusters (RT := Reference.failing (lit "timed out"))
                     two_clusters []).2) = 3%nat.
Proof.
  destruct (summarize_clusters_call_sequence
              (RT := Reference.failing (lit "timed out")) two_clusters [])
    as (loop_events & _ & _ & _ & Hlen).
  - unfold disabled. vm_compute. discriminate.
  - reflexivity.
  - repeat constructor; eexists; reflexivity.
  - exact Hlen.
Defined.

Lemma summarize_clusters_result_invariant_witness :
  ∃ result trace',
    summarize_clusters (RT := Reference.answering plural_key_response)
      two_clusters [] = (inr result, trace')
    ∧ length (Result.clusters result) = 2%nat.
Proof.
  destruct (summarize_clusters (RT := Reference.answering plural_key_response)
              two_clusters []) as [[e|result] trace'] eqn:Hrun.
  - vm_compute in Hrun. discriminate.
  - exists result, trace'. split; [reflexivity|].
    apply (summarize_clusters_result_invariant
             (RT := Reference.answering plural_key_response)
             two_clusters [] trace' result Hrun).
Defined.

Lemma summarize_clusters_provider_down_witness :
  ∃ events,
    summarize_clusters (RT := Reference.failing (lit "timed out")) two_clusters []
    = (inr {| Result.alerts := JString (lit "No alerts identified");
              Result.clusters :=
                [summarized_fallback_sample (-1) 1
                   [lit "2024-01-02T00:00:00 INFO startup"];
                 summarized_fallback_sample 0 2
                   [lit "2024-01-01T00:00:00 ERROR db timeout";
                    lit "2024-01-01T00:00:05 ERROR db timeout retry"]];
              Result.ai_enhancement_used := true;
              Result.ollama_model_used := Some (lit "llama3.2");
              Result.ai_error := None |}, events).
Proof.
  destruct (summarize_clusters_provider_down
              (RT := Reference.failing (lit "timed out")) two_clusters [])
    as (events & Hrun).
  - unfold disabled. vm_compute. discriminate.
  - reflexivity.
  - repeat constructor; eexists; reflexivity.
  - repeat constructor.
  - intros history prompt. by eexists.
  - exists ([] ++ events). exact Hrun.
Defined.

Lemma suggest_solutions_general_component_witness :
  ∃ name count,
    (name, count) ∈ [(lit "auth", 1); (lit "db", 2); (lit "cache", 2)]
    ∧ suggest_solutions (λ _ _, []) sample_analysis = [general_solution name].
Proof.
  destruct (suggest_solutions_general_component (λ _ _, []) sample_analysis)
    as (before & name & count & after & Hsplit & _ & _ & Hresult).
  - reflexivity.
  - reflexivity.
  - exists name, count. split; [|exact Hresult].
    change (default [] (Analysis.components sample_analysis)) with
      [(lit "auth", 1); (lit "db", 2); (lit "cache", 2)] in Hsplit.
    rewrite Hsplit. apply elem_of_app. right. apply list_elem_of_here.
Defined.

End Instances.
